(** * swupdd: the request lifecycle manager of the swupd control daemon

    A shallow embedding of [src/swupdd-main.c].  Every C function that the
    development reasons about is transcribed as a Rocq function of the same
    name.  What the C code obtains from the operating system or from sd-bus
    (the result of [pipe2], of [fork], of an emission, ...) is an explicit
    argument of the function that asks for it; the calls the code makes to
    the outside world and its writes to the daemon state are returned as a
    list of [action]s, in program order.

    Conventions.
    - C [int] results are [Z]; a negative value is [-errno], as in sd-bus.
    - Logging ([ERR], [DEBUG], from the absent [log.h]) has no effect on the
      daemon state or on the bus and is left out.
    - [strdup], [asprintf] and [malloc] are taken to succeed. *)

From Stdlib Require Import ZArith String List Lia Bool.
From stdpp Require Import base option gmap strings list fin_maps.

Local Open Scope string_scope.
Local Open Scope list_scope.
Local Open Scope Z_scope.

(** ** Constants of the system headers (Linux values) *)

Definition EINTR : Z := 4.
Definition ENXIO : Z := 6.
Definition EBADF : Z := 9.
Definition ECHILD : Z := 10.
Definition EAGAIN : Z := 11.
Definition ENOMEM : Z := 12.
Definition EBUSY : Z := 16.
Definition EOPNOTSUPP : Z := 95.

Definition SIGINT : Z := 2.
Definition SIGKILL : Z := 9.

Definition CLD_EXITED : Z := 1.
Definition CLD_KILLED : Z := 2.
Definition CLD_DUMPED : Z := 3.

Definition STDOUT_FILENO : Z := 1.
Definition STDERR_FILENO : Z := 2.

Definition EXIT_SUCCESS : Z := 0.
Definition EXIT_FAILURE : Z := 1.

Definition SD_EVENT_INITIAL : Z := 0.
Definition SD_EVENT_FINISHED : Z := 5.

Definition INT_MIN : Z := - 2 ^ 31.
Definition INT_MAX : Z := 2 ^ 31 - 1.
Definition UINT64_MAX : Z := 2 ^ 64 - 1.

(** ** Constants and tables of the program *)

Definition SWUPD_CLIENT : string := "swupd".
Definition TIMEOUT_EXIT_SEC : Z := 30.

Inductive method_t : Set :=
| METHOD_NOTSET
| METHOD_CHECK_UPDATE
| METHOD_UPDATE
| METHOD_VERIFY
| METHOD_BUNDLE_ADD
| METHOD_BUNDLE_REMOVE.

#[global] Instance method_t_eq_dec : EqDecision method_t.
Proof. solve_decision. Defined.

(** The numeric value of the enumerator; C tests [!context->method] and
    [assert(child_method)] on it. *)
Definition method_value (m : method_t) : Z :=
  match m with
  | METHOD_NOTSET => 0
  | METHOD_CHECK_UPDATE => 1
  | METHOD_UPDATE => 2
  | METHOD_VERIFY => 3
  | METHOD_BUNDLE_ADD => 4
  | METHOD_BUNDLE_REMOVE => 5
  end.

(** [NULL] entries of the two tables are [None]. *)
Definition _method_str_map (m : method_t) : option string :=
  match m with
  | METHOD_NOTSET => None
  | METHOD_CHECK_UPDATE => Some "checkUpdate"
  | METHOD_UPDATE => Some "update"
  | METHOD_VERIFY => Some "verify"
  | METHOD_BUNDLE_ADD => Some "bundleAdd"
  | METHOD_BUNDLE_REMOVE => Some "bundleRemove"
  end.

Definition _method_opt_map (m : method_t) : option string :=
  match m with
  | METHOD_NOTSET => None
  | METHOD_CHECK_UPDATE => Some "check-update"
  | METHOD_UPDATE => Some "update"
  | METHOD_VERIFY => Some "verify"
  | METHOD_BUNDLE_ADD => Some "bundle-add"
  | METHOD_BUNDLE_REMOVE => Some "bundle-remove"
  end.

Record daemon_state_t : Set := mk_daemon_state {
  bus : Z;            (* sd_bus *bus, an opaque handle *)
  child : Z;          (* pid_t child *)
  method : method_t
}.

#[global] Instance daemon_state_eq_dec : EqDecision daemon_state_t.
Proof. solve_decision. Defined.

(** ** The argument list *)

(** Modelled from the spec: [list_append_data] of the absent [list.h].  The
    handlers keep the returned pointer as the list and hand [list_head] of it
    to [list_to_strv]; the spec has every token appended after the ones
    already there, in the order received.  The list is the sequence of its
    data from head to tail and the new datum goes last. *)
Definition list_append_data (l : list string) (data : string) : list string :=
  l ++ [data].

(** [list_to_strv (list_head args)]: the data of the list, head first. *)
Definition list_to_strv (strlist : list string) : list string := strlist.

(** [strdup] of a table entry; the handlers only index the table with the
    five set methods, where the entry is not [NULL]. *)
Definition strdup_entry (e : option string) : string := default EmptyString e.

(** [arr] is [None] for a [NULL] array pointer. *)
Fixpoint is_in_array_loop (key : string) (temp : list string) : Z :=
  match temp with
  | [] => 0
  | t :: temp' => if String.eqb key t then 1 else is_in_array_loop key temp'
  end.

Definition is_in_array (key : string) (arr : option (list string)) : Z :=
  match arr with
  | None => 0
  | Some a => is_in_array_loop key a
  end.

(** ** Bus messages

    The body of a method call, as far as the handlers read it: a sequence of
    complete arguments, of the types that occur in the vtable signatures.
    A [sd_bus_message] value is the part of the body not read yet.  The
    payload of a variant is a string, a boolean, or something else. *)

Inductive variant : Set :=
| VString (s : string)
| VBool (b : bool)
| VInt32 (i : Z).

Inductive bus_arg : Set :=
| ArgOptions (entries : list (string * variant))   (* a{sv} *)
| ArgString (s : string)                           (* s *)
| ArgStrv (l : list string)                        (* as *)
| ArgBool (b : bool).                              (* b *)

Definition sd_bus_message : Set := list bus_arg.

(** sd-bus answers [-ENXIO] when the next item has another type than the one
    asked for, or when the body is exhausted. *)

(** [sd_bus_message_enter_container(m, SD_BUS_TYPE_VARIANT, contents)] at a
    variant. *)
Definition sd_bus_message_enter_variant (v : variant) (contents : string) : Z :=
  match v with
  | VString _ => if String.eqb contents "s" then 1 else - ENXIO
  | VBool _ => if String.eqb contents "b" then 1 else - ENXIO
  | VInt32 _ => if String.eqb contents "i" then 1 else - ENXIO
  end.

(** [sd_bus_message_read(m, "s", &value)] inside a variant. *)
Definition sd_bus_message_read_variant_s (v : variant) : Z * string :=
  match v with
  | VString s => (1, s)
  | _ => (- ENXIO, EmptyString)
  end.

(** [sd_bus_message_read(m, "b", &value)] inside a variant; the value is
    stored in an [int]. *)
Definition sd_bus_message_read_variant_b (v : variant) : Z * Z :=
  match v with
  | VBool b => (1, if b then 1 else 0)
  | _ => (- ENXIO, 0)
  end.

(** [sd_bus_message_exit_container]: every container the handlers leave has
    been read to its end, where sd-bus answers 1. *)
Definition sd_bus_message_exit_container : Z := 1.

(** [sd_bus_message_read(m, "s", &argname)] at the key of a dict entry of
    an [a{sv}] array: the key is a string. *)
Definition sd_bus_message_read_key (entry : string * variant) : Z * string :=
  (1, fst entry).

(** [sd_bus_message_skip(m, "v")] at a variant. *)
Definition sd_bus_message_skip_variant (v : variant) : Z := 1.

(** [sd_bus_message_enter_container(m, SD_BUS_TYPE_ARRAY, "{sv}")]. *)
Definition sd_bus_message_enter_array_sv (m : sd_bus_message)
  : Z * list (string * variant) * sd_bus_message :=
  match m with
  | ArgOptions entries :: m' => (1, entries, m')
  | _ => (- ENXIO, [], m)
  end.

(** [sd_bus_message_enter_container(m, SD_BUS_TYPE_ARRAY, "s")]. *)
Definition sd_bus_message_enter_array_s (m : sd_bus_message)
  : Z * list string * sd_bus_message :=
  match m with
  | ArgStrv l :: m' => (1, l, m')
  | _ => (- ENXIO, [], m)
  end.

(** [sd_bus_message_read(m, "s", &s)] at the top level of the body. *)
Definition sd_bus_message_read_s (m : sd_bus_message)
  : Z * string * sd_bus_message :=
  match m with
  | ArgString s :: m' => (1, s, m')
  | _ => (- ENXIO, EmptyString, m)
  end.

(** [sd_bus_message_read(m, "b", &force)] at the top level of the body. *)
Definition sd_bus_message_read_b (m : sd_bus_message)
  : Z * Z * sd_bus_message :=
  match m with
  | ArgBool b :: m' => (1, if b then 1 else 0, m')
  | _ => (- ENXIO, 0, m)
  end.

(** [asprintf(&option, "--%s", optname)]: the number of bytes printed and
    the string. *)
Definition asprintf_option (optname : string) : Z * string :=
  let option := "--" +:+ optname in
  (Z.of_nat (String.length option), option).

(** ** Argument Translator *)

Definition bus_message_read_option_string
  (strlist : list string) (v : variant) (optname : string) : Z * list string :=
  let r := sd_bus_message_enter_variant v "s" in
  if r <? 0 then (r, strlist) else
  let '(r, value) := sd_bus_message_read_variant_s v in
  if r <? 0 then (r, strlist) else
  let r := sd_bus_message_exit_container in
  if r <? 0 then (r, strlist) else
  let '(r, option) := asprintf_option optname in
  if r <? 0 then (- ENOMEM, strlist) else
  let strlist := list_append_data strlist option in
  let strlist := list_append_data strlist value in
  (0, strlist).

Definition bus_message_read_option_bool
  (strlist : list string) (v : variant) (optname : string) : Z * list string :=
  let r := sd_bus_message_enter_variant v "b" in
  if r <? 0 then (r, strlist) else
  let '(r, value) := sd_bus_message_read_variant_b v in
  if r <? 0 then (r, strlist) else
  let r := sd_bus_message_exit_container in
  if r <? 0 then (r, strlist) else
  if negb (value =? 0) then
    let '(r, option) := asprintf_option optname in
    if r <? 0 then (- ENOMEM, strlist) else
    (0, list_append_data strlist option)
  else (0, strlist).

(** The [while] loop of [bus_message_read_options] over the dict entries
    of the array, from the cursor on.  [sd_bus_message_enter_container(m,
    SD_BUS_TYPE_DICT_ENTRY, "sv")] answers 0 at the end of the array, which
    ends the loop, and a positive value at an entry; the key of an entry is
    a string by the signature of the array.  The result is the value of [r]
    when the loop is left by [return] ([inl]) or by its condition ([inr]). *)
Fixpoint bus_message_read_options_loop
  (strlist : list string) (entries : list (string * variant))
  (opts_str opts_bool : option (list string)) : (Z + Z) * list string :=
  match entries with
  | [] => (inr 0, strlist)
  | entry :: entries' =>
      let '(r, argname) := sd_bus_message_read_key entry in
      if r <? 0 then (inl r, strlist) else
      let v := snd entry in
      let '(r, strlist) :=
        if negb (is_in_array argname opts_str =? 0) then
          bus_message_read_option_string strlist v argname
        else if negb (is_in_array argname opts_bool =? 0) then
          bus_message_read_option_bool strlist v argname
        else
          (sd_bus_message_skip_variant v, strlist) in
      if r <? 0 then (inl r, strlist) else
      let r := sd_bus_message_exit_container in
      if r <? 0 then (inl r, strlist) else
      bus_message_read_options_loop strlist entries' opts_str opts_bool
  end.

Definition bus_message_read_options
  (strlist : list string) (m : sd_bus_message)
  (opts_str opts_bool : option (list string))
  : Z * list string * sd_bus_message :=
  let '(r, entries, m') := sd_bus_message_enter_array_sv m in
  if r <? 0 then (r, strlist, m) else
  match bus_message_read_options_loop strlist entries opts_str opts_bool with
  | (inl r, strlist) => (r, strlist, m')
  | (inr _, strlist) =>
      let r := sd_bus_message_exit_container in
      if r <? 0 then (r, strlist, m') else
      (0, strlist, m')
  end.

(** ** Actions

    The system and bus calls of a handler that act on the outside world and
    its assignments to the fields of the daemon state, in the order the
    handler makes them.  A call whose result the handler looks at carries
    the result. *)

Inductive sig_arg : Set :=
| SigString (s : option string)   (* a [char *], [None] for [NULL] *)
| SigInt (i : Z).

Inductive action : Set :=
| ActPipe2 (r : Z)
| ActFork (pid : Z)
| ActClose (fd : Z)
| ActAddIo (fd : Z) (r : Z)                 (* sd_event_add_io on [fd] *)
| ActWaitpid (pid : Z) (ws : Z)
| ActKill (pid : Z) (sig : Z)
| ActRead (fd : Z) (count : Z)
| ActWriteStdout (data : string)
| ActUnrefSource
| ActEmitSignal (member : string) (args : list sig_arg) (r : Z)
| ActReply (accepted : bool)                (* sd_bus_reply_method_return(m, "b", _) *)
| ActBusClose
| ActEventExit (code : Z)
| ActStoreChild (pid : Z)                   (* context->child = pid *)
| ActStoreMethod (m : method_t).            (* context->method = m *)

#[global] Instance sig_arg_eq_dec : EqDecision sig_arg.
Proof. solve_decision. Defined.

(** The notifications that reached the bus: the emissions sd-bus accepted. *)
Definition delivered (trace : list action) : list (string * list sig_arg) :=
  flat_map (fun a =>
    match a with
    | ActEmitSignal member args r => if r <? 0 then [] else [(member, args)]
    | _ => []
    end) trace.

(** Did the handler assign to the daemon state? *)
Definition mutates (trace : list action) : bool :=
  existsb (fun a =>
    match a with ActStoreChild _ | ActStoreMethod _ => true | _ => false end) trace.

(** Did the handler start a process, did it send a signal to one? *)
Definition spawns (trace : list action) : bool :=
  existsb (fun a =>
    match a with ActPipe2 _ | ActFork _ => true | _ => false end) trace.

Definition kills (trace : list action) : list (Z * Z) :=
  flat_map (fun a =>
    match a with ActKill pid sig => [(pid, sig)] | _ => [] end) trace.

(** ** File descriptors of the forked child *)

Inductive file : Set :=
| DaemonFile (id : Z)      (* something the daemon had open before the spawn *)
| PipeReadEnd
| PipeWriteEnd.

#[global] Instance file_eq_dec : EqDecision file.
Proof. solve_decision. Defined.

(** [dup2(oldfd, newfd)]: [newfd] becomes a copy of [oldfd]; [-1] when
    [oldfd] is not open. *)
Definition dup2 (oldfd newfd : Z) (t : gmap Z file) : Z * gmap Z file :=
  match t !! oldfd with
  | Some f => (newfd, <[newfd := f]> t)
  | None => (-1, t)
  end.

(** [while ((dup2(oldfd, newfd) == -1) && (errno == EINTR)) {}] when the
    first [eintr] attempts are interrupted. *)
Fixpoint dup2_retry (eintr : nat) (oldfd newfd : Z) (t : gmap Z file)
  : Z * gmap Z file :=
  match eintr with
  | O => dup2 oldfd newfd t
  | S n => dup2_retry n oldfd newfd t
  end.

Definition close (fd : Z) (t : gmap Z file) : gmap Z file := delete fd t.

(** How the forked child ends: with a new program image, or with [_exit]. *)
Inductive child_end : Set :=
| Exec (file : string) (argv : list string)
| Exit (status : Z).

Record child_image : Type := mk_child_image {
  child_fds : gmap Z file;
  child_end_of : child_end
}.

(** What a handler does.  [Returned r context trace]: it returns [r] and
    leaves the daemon state [context].  [Aborted]: an [assert] failed.
    [InChild]: this is the forked child, which never returns to the caller. *)
Inductive outcome : Type :=
| Returned (r : Z) (context : daemon_state_t) (trace : list action)
| Aborted (trace : list action)
| InChild (image : child_image).

(** What the system answers during one bus method call. *)
Record os_env : Type := mk_os_env {
  fdtable : gmap Z file;       (* the descriptors the daemon has open *)
  pipe2_r : Z;                 (* result of pipe2 *)
  pipe2_errno : positive;      (* errno after a failed pipe2 *)
  fds : Z * Z;                 (* fds[0], fds[1] after a successful pipe2 *)
  fork_pid : Z;                (* result of fork *)
  fork_errno : positive;       (* errno after a failed fork *)
  dup2_eintr : nat;            (* interrupted dup2 attempts in the child *)
  execvp_fails : bool;
  add_io_r : Z;                (* result of sd_event_add_io *)
  reply_r : Z                  (* result of sd_bus_reply_method_return *)
}.

(** ** Process Supervisor *)

(** The [pid == 0] branch of [run_swupd], on the descriptor table the child
    inherits. *)
Definition run_swupd_child (args : list string) (env : os_env)
  (t : gmap Z file) : child_image :=
  let '(fd0, fd1) := fds env in
  let '(_, t) := dup2 STDOUT_FILENO STDERR_FILENO t in
  let '(_, t) := dup2_retry (dup2_eintr env) fd1 STDOUT_FILENO t in
  let t := close fd1 t in
  let t := close fd0 t in
  let argv := list_to_strv args in
  match argv with
  | file :: _ =>
      if execvp_fails env then mk_child_image t (Exit 1)
      else mk_child_image t (Exec file argv)
  | [] => mk_child_image t (Exit 1)
  end.

Definition run_swupd (method : method_t) (args : list string)
  (env : os_env) (context : daemon_state_t) : outcome :=
  let r := pipe2_r env in
  if r <? 0 then Returned (- Z.pos (pipe2_errno env)) context [ActPipe2 r] else
  let '(fd0, fd1) := fds env in
  let t := <[fd1 := PipeWriteEnd]> (<[fd0 := PipeReadEnd]> (fdtable env)) in
  let pid := fork_pid env in
  if pid =? 0 then InChild (run_swupd_child args env t)
  else if pid <? 0 then
    Returned (- Z.pos (fork_errno env)) context [ActPipe2 r; ActFork pid]
  else
    let context := mk_daemon_state (bus context) pid method in
    let r' := add_io_r env in
    let trace := [ActPipe2 r; ActFork pid; ActClose fd1;
                  ActStoreChild pid; ActStoreMethod method; ActAddIo fd0 r'] in
    if r' <? 0 then Aborted trace
    else Returned 0 context trace.

(** [int] arithmetic, two's complement on 32 bits. *)
Definition to_int (z : Z) : Z := (z + 2 ^ 31) mod 2 ^ 32 - 2 ^ 31.

Record signalfd_siginfo : Set := mk_siginfo {
  ssi_code : Z;
  ssi_status : Z;
  ssi_pid : Z
}.

(** [ws] is the result of [waitpid], [emit_r] the one of
    [sd_bus_emit_signal]. *)
Definition on_child_exit (si : signalfd_siginfo) (ws emit_r : Z)
  (context : daemon_state_t) : outcome :=
  let child_method := method context in
  if method_value child_method =? 0 then Aborted [] else
  let status :=
    if ssi_code si =? CLD_EXITED then ssi_status si
    else to_int (128 + ssi_status si) in
  if negb (ssi_pid si =? child context) then Aborted [] else
  if ws =? -1 then Aborted [ActWaitpid (ssi_pid si) ws] else
  let context := mk_daemon_state (bus context) 0 METHOD_NOTSET in
  let r := emit_r in
  Returned (if r <? 0 then EXIT_FAILURE else EXIT_SUCCESS) context
    [ActWaitpid (ssi_pid si) ws;
     ActStoreChild 0; ActStoreMethod METHOD_NOTSET;
     ActEmitSignal "requestCompleted"
       [SigString (_method_str_map child_method); SigInt status] r].

(** ** Output Relay *)

(** [count] is the result of [read], [buffer] the bytes read,
    [read_errno] the [errno] of a failed read. *)
Definition on_childs_output (fd : Z) (count : Z) (buffer : string)
  (read_errno : positive) (emit_r : Z) (context : daemon_state_t) : outcome :=
  if 0 <? count then
    let r := emit_r in
    Returned (if r <? 0 then EXIT_FAILURE else EXIT_SUCCESS) context
      [ActRead fd count; ActWriteStdout buffer;
       ActEmitSignal "childOutputReceived" [SigString (Some buffer)] r]
  else if count <? 0 then
    let r := - Z.pos read_errno in
    Returned (if r <? 0 then EXIT_FAILURE else EXIT_SUCCESS) context
      [ActRead fd count]
  else
    Returned EXIT_SUCCESS context [ActRead fd count; ActClose fd; ActUnrefSource].

(** The watcher of the release of the service name: it closes the bus and
    asks the loop to exit with code 0. *)
Definition on_name_owner_change (context : daemon_state_t) : outcome :=
  Returned 1 context [ActBusClose; ActEventExit 0].

(** ** Request Dispatcher *)

(** The [finish:] label of the method handlers: free the argument list and
    reply with the boolean [r >= 0]; the handler returns what the reply
    call returns. *)
Definition finish (r : Z) (env : os_env) (context : daemon_state_t)
  (trace : list action) : outcome :=
  Returned (reply_r env) context (trace ++ [ActReply (0 <=? r)]).

(** [r = run_swupd(...)] followed by [finish:]. *)
Definition finish_run (o : outcome) (env : os_env) : outcome :=
  match o with
  | Returned r context trace => finish r env context trace
  | Aborted trace => Aborted trace
  | InChild image => InChild image
  end.

Definition handler : Type := sd_bus_message -> os_env -> daemon_state_t -> outcome.

Definition method_update : handler := fun m env context =>
  if negb (child context =? 0) then finish (- EAGAIN) env context [] else
  let args := list_append_data [] SWUPD_CLIENT in
  let args := list_append_data args (strdup_entry (_method_opt_map METHOD_UPDATE)) in
  let accepted_str_opts := ["url"; "contenturl"; "versionurl"; "log"] in
  let '(r, args, m) := bus_message_read_options args m (Some accepted_str_opts) None in
  if r <? 0 then finish r env context [] else
  finish_run (run_swupd METHOD_UPDATE args env context) env.

Definition method_verify : handler := fun m env context =>
  if negb (child context =? 0) then finish (- EAGAIN) env context [] else
  let args := list_append_data [] SWUPD_CLIENT in
  let args := list_append_data args (strdup_entry (_method_opt_map METHOD_VERIFY)) in
  let accepted_str_opts := ["url"; "contenturl"; "versionurl"; "log"] in
  let accepted_bool_opts := ["fix"] in
  let '(r, args, m) :=
    bus_message_read_options args m (Some accepted_str_opts) (Some accepted_bool_opts) in
  if r <? 0 then finish r env context [] else
  finish_run (run_swupd METHOD_VERIFY args env context) env.

Definition method_check_update : handler := fun m env context =>
  if negb (child context =? 0) then finish (- EAGAIN) env context [] else
  let args := list_append_data [] SWUPD_CLIENT in
  let args := list_append_data args (strdup_entry (_method_opt_map METHOD_CHECK_UPDATE)) in
  let accepted_str_opts := ["url"] in
  let '(r, args, m) := bus_message_read_options args m (Some accepted_str_opts) None in
  if r <? 0 then finish r env context [] else
  let '(r, bundle, m) := sd_bus_message_read_s m in
  if r <? 0 then finish r env context [] else
  let args := list_append_data args bundle in
  finish_run (run_swupd METHOD_CHECK_UPDATE args env context) env.

(** [while ((r = sd_bus_message_read(m, "s", &bundle)) > 0)] over the
    elements of the array; the read answers 0 at the end of the array. *)
Fixpoint read_bundles_loop (args : list string) (bundles : list string)
  : Z * list string :=
  match bundles with
  | [] => (0, args)
  | bundle :: bundles' => read_bundles_loop (list_append_data args bundle) bundles'
  end.

Definition method_bundle_add : handler := fun m env context =>
  if negb (child context =? 0) then finish (- EAGAIN) env context [] else
  let args := list_append_data [] SWUPD_CLIENT in
  let args := list_append_data args (strdup_entry (_method_opt_map METHOD_BUNDLE_ADD)) in
  let accepted_str_opts := ["url"] in
  let accepted_bool_opts := ["list"] in
  let '(r, args, m) :=
    bus_message_read_options args m (Some accepted_str_opts) (Some accepted_bool_opts) in
  if r <? 0 then finish r env context [] else
  let '(r, bundles, m) := sd_bus_message_enter_array_s m in
  if r <? 0 then finish r env context [] else
  let '(r, args) := read_bundles_loop args bundles in
  if r <? 0 then finish r env context [] else
  let r := sd_bus_message_exit_container in
  if r <? 0 then finish r env context [] else
  finish_run (run_swupd METHOD_BUNDLE_ADD args env context) env.

Definition method_bundle_remove : handler := fun m env context =>
  if negb (child context =? 0) then finish (- EAGAIN) env context [] else
  let args := list_append_data [] SWUPD_CLIENT in
  let args := list_append_data args (strdup_entry (_method_opt_map METHOD_BUNDLE_REMOVE)) in
  let accepted_str_opts := ["url"] in
  let '(r, args, m) := bus_message_read_options args m (Some accepted_str_opts) None in
  if r <? 0 then finish r env context [] else
  let '(r, bundle, m) := sd_bus_message_read_s m in
  if r <? 0 then finish r env context [] else
  let args := list_append_data args bundle in
  finish_run (run_swupd METHOD_BUNDLE_REMOVE args env context) env.

Definition method_cancel : handler := fun m env context =>
  let child := child context in
  if child =? 0 then finish (- ECHILD) env context [] else
  let '(r, force, m) := sd_bus_message_read_b m in
  if r <? 0 then finish r env context [] else
  if negb (force =? 0) then finish r env context [ActKill child SIGKILL]
  else finish r env context [ActKill child SIGINT].

(** The methods of [swupdd_vtable]: member, signature of the call, handler. *)
Definition swupdd_vtable : list (string * string * handler) :=
  [ ("checkUpdate", "a{sv}s", method_check_update);
    ("update", "a{sv}", method_update);
    ("verify", "a{sv}", method_verify);
    ("bundleAdd", "a{sv}as", method_bundle_add);
    ("bundleRemove", "a{sv}s", method_bundle_remove);
    ("cancel", "b", method_cancel) ].

(** The argument list a handler builds for a call, up to the point where it
    hands the list to [run_swupd]: the [Exec] image of the child shows it. *)
Definition argv_of (o : outcome) : option (list string) :=
  match o with
  | InChild image =>
      match child_end_of image with
      | Exec _ argv => Some argv
      | Exit _ => None
      end
  | _ => None
  end.

(** ** The events of the loop and their dispatch *)

Definition arg_signature (a : bus_arg) : string :=
  match a with
  | ArgOptions _ => "a{sv}"
  | ArgString _ => "s"
  | ArgStrv _ => "as"
  | ArgBool _ => "b"
  end.

Definition signature (m : sd_bus_message) : string :=
  fold_right (fun a s => arg_signature a +:+ s) EmptyString m.

Fixpoint vtable_find (member : string) (vtable : list (string * string * handler))
  : option (string * handler) :=
  match vtable with
  | [] => None
  | (name, sig, h) :: vtable' =>
      if String.eqb member name then Some (sig, h) else vtable_find member vtable'
  end.

Inductive daemon_event : Type :=
| BusCall (member : string) (m : sd_bus_message) (env : os_env)
| ChildExit (si : signalfd_siginfo) (ws emit_r : Z)            (* SIGCHLD *)
| ChildOutput (fd count : Z) (buffer : string) (read_errno : positive) (emit_r : Z)
| NameOwnerChanged.

(** sd-bus calls the handler of a member of the vtable when the body of the
    call has the signature the vtable gives; any other call it answers
    itself with an error, and no handler runs. *)
Definition dispatch (ev : daemon_event) (context : daemon_state_t) : outcome :=
  match ev with
  | BusCall member m env =>
      match vtable_find member swupdd_vtable with
      | Some (sig, h) =>
          if String.eqb (signature m) sig then h m env context
          else Returned 1 context []
      | None => Returned 1 context []
      end
  | ChildExit si ws emit_r => on_child_exit si ws emit_r context
  | ChildOutput fd count buffer read_errno emit_r =>
      on_childs_output fd count buffer read_errno emit_r context
  | NameOwnerChanged => on_name_owner_change context
  end.

(** The daemon state when [main] enters the loop: zeroed by [memset], then
    the bus handle stored. *)
Definition main_state (b : Z) : daemon_state_t :=
  mk_daemon_state b 0 METHOD_NOTSET.

(** The state of the daemon after a sequence of events; [None] when the
    daemon does not survive it (a failed [assert]) or when the sequence
    follows the forked child instead of the daemon. *)
Fixpoint run_events (evs : list daemon_event) (context : daemon_state_t)
  : option daemon_state_t :=
  match evs with
  | [] => Some context
  | ev :: evs' =>
      match dispatch ev context with
      | Returned _ context' _ => run_events evs' context'
      | Aborted _ => None
      | InChild _ => None
      end
  end.

(** ** Lifecycle/Idle Controller *)

(** What [sd_event_run] did: failed, timed out, or dispatched one event. *)
Inductive run_result : Type :=
| RunError (errno : positive)
| RunTimeout
| RunDispatched (ev : daemon_event).

Definition sd_event_run_r (rr : run_result) : Z :=
  match rr with
  | RunError e => - Z.pos e
  | RunTimeout => 0
  | RunDispatched _ => 1
  end.

(** What the system answers during one iteration of the loop. *)
Record loop_env : Type := mk_loop_env {
  get_state_r : Z;           (* sd_event_get_state *)
  run : run_result;          (* sd_event_run *)
  try_close_r : Z;           (* sd_bus_try_close *)
  get_unique_name_r : Z;     (* sd_bus_get_unique_name *)
  asprintf_r : Z;            (* asprintf of the match rule *)
  add_match_r : Z;           (* sd_bus_add_match *)
  release_name_r : Z         (* sd_bus_release_name *)
}.

(** The calls of the loop itself. *)
Inductive loop_action : Type :=
| EventRun (timeout : Z)                 (* sd_event_run(event, timeout) *)
| Handled (trace : list action)          (* the handler run by it *)
| TryClose (r : Z)                       (* sd_bus_try_close *)
| NotifyStopping
| AddMatch (r : Z)
| ReleaseName (r : Z)
| EventExit (code : Z).

Inductive loop_step : Type :=
| LoopContinue (exiting : bool) (context : daemon_state_t)
| LoopBreak (context : daemon_state_t)
| LoopReturn (r : Z)
| LoopAborted
| LoopInChild.

(** [(uint64_t)] conversion. *)
Definition to_uint64 (z : Z) : Z := z mod 2 ^ 64.

(** [exiting ? (uint64_t) -1 : (uint64_t) TIMEOUT_EXIT_SEC * 1000000] *)
Definition run_timeout (exiting : bool) : Z :=
  if exiting then to_uint64 (-1)
  else to_uint64 (to_uint64 TIMEOUT_EXIT_SEC * 1000000).

(** The daemon state after [sd_event_run]: the handlers run inside it. *)
Definition after_run (rr : run_result) (context : daemon_state_t) : outcome :=
  match rr with
  | RunDispatched ev => dispatch ev context
  | _ => Returned 0 context []
  end.

(** One iteration of the [for (;;)] loop of [run_bus_event_loop]. *)
Definition loop_body (exiting : bool) (context : daemon_state_t)
  (env : loop_env) : loop_step * list loop_action :=
  let r := get_state_r env in
  if r <? 0 then (LoopReturn r, []) else
  if r =? SD_EVENT_FINISHED then (LoopBreak context, []) else
  let r := sd_event_run_r (run env) in
  let tr := [EventRun (run_timeout exiting)] in
  if r <? 0 then (LoopReturn r, tr) else
  match after_run (run env) context with
  | Aborted t => (LoopAborted, tr ++ [Handled t])
  | InChild _ => (LoopInChild, tr)
  | Returned _ context t =>
      let tr := tr ++ [Handled t] in
      if (method_value (method context) =? 0) && (r =? 0) && negb exiting then
        let r := try_close_r env in
        let tr := tr ++ [TryClose r] in
        if r =? - EBUSY then (LoopContinue exiting context, tr) else
        if r =? - EOPNOTSUPP then
          let tr := tr ++ [NotifyStopping] in
          let r := get_unique_name_r env in
          if r <? 0 then (LoopReturn r, tr) else
          let r := asprintf_r env in
          if r <? 0 then (LoopReturn r, tr) else
          let r := add_match_r env in
          let tr := tr ++ [AddMatch r] in
          if r <? 0 then (LoopReturn r, tr) else
          let r := release_name_r env in
          let tr := tr ++ [ReleaseName r] in
          if r <? 0 then (LoopReturn r, tr) else
          (LoopContinue true context, tr)
        else
        if r <? 0 then (LoopReturn r, tr) else
        (LoopBreak context, tr ++ [EventExit 0])
      else (LoopContinue exiting context, tr)
  end.

(** The loop over the answers of successive iterations; [None] while the
    loop has not been left when the answers run out.  [exit_code_r] and
    [code] are what [sd_event_get_exit_code] answers after the loop. *)
Fixpoint run_bus_event_loop_from (envs : list loop_env) (exiting : bool)
  (context : daemon_state_t) (exit_code_r code : Z)
  : option (Z * list loop_action) :=
  match envs with
  | [] => None
  | env :: envs' =>
      match loop_body exiting context env with
      | (LoopContinue exiting' context', tr) =>
          match run_bus_event_loop_from envs' exiting' context' exit_code_r code with
          | Some (r, tr') => Some (r, tr ++ tr')
          | None => None
          end
      | (LoopBreak _, tr) =>
          Some (if exit_code_r <? 0 then exit_code_r else code, tr)
      | (LoopReturn r, tr) => Some (r, tr)
      | (LoopAborted, _) => None
      | (LoopInChild, _) => None
      end
  end.

Definition run_bus_event_loop (envs : list loop_env) (context : daemon_state_t)
  (exit_code_r code : Z) : option (Z * list loop_action) :=
  run_bus_event_loop_from envs false context exit_code_r code.

(** The close attempts among the calls of an iteration. *)
Definition close_attempts (tr : list loop_action) : list Z :=
  flat_map (fun a => match a with TryClose r => [r] | _ => [] end) tr.

(** The timeouts of the waits among the calls of an iteration. *)
Definition wait_timeouts (tr : list loop_action) : list Z :=
  flat_map (fun a => match a with EventRun t => [t] | _ => [] end) tr.

(** ** Reading of the spec used in the statements *)

(** All emissions a handler attempted, accepted by sd-bus or not. *)
Definition emitted (trace : list action) : list (string * list sig_arg) :=
  flat_map (fun a =>
    match a with
    | ActEmitSignal member args _ => [(member, args)]
    | _ => []
    end) trace.

(** A supplied option is well typed for the allow-lists: a string where a
    string option is expected, a boolean where a boolean option is; an
    option on no list may hold anything. *)
Definition option_readable (opts_str opts_bool : option (list string))
  (e : string * variant) : bool :=
  let '(name, v) := e in
  if negb (is_in_array name opts_str =? 0) then
    match v with VString _ => true | _ => false end
  else if negb (is_in_array name opts_bool =? 0) then
    match v with VBool _ => true | _ => false end
  else true.

(** The tokens the spec gives a supplied option (section 4.1): the pair
    [--name], value for an allowed string option; [--name] for an allowed
    boolean option that is true; nothing otherwise. *)
Definition spec_option_tokens (opts_str opts_bool : option (list string))
  (e : string * variant) : list string :=
  let '(name, v) := e in
  if negb (is_in_array name opts_str =? 0) then
    match v with VString value => ["--" +:+ name; value] | _ => [] end
  else if negb (is_in_array name opts_bool =? 0) then
    match v with VBool true => ["--" +:+ name] | _ => [] end
  else [].

(** The handler that starts each operation kind. *)
Definition handler_of (M : method_t) : option handler :=
  match M with
  | METHOD_NOTSET => None
  | METHOD_CHECK_UPDATE => Some method_check_update
  | METHOD_UPDATE => Some method_update
  | METHOD_VERIFY => Some method_verify
  | METHOD_BUNDLE_ADD => Some method_bundle_add
  | METHOD_BUNDLE_REMOVE => Some method_bundle_remove
  end.

(** The invariant of the data model (section 3 of the spec). *)
Definition state_invariant (context : daemon_state_t) : Prop :=
  method context = METHOD_NOTSET <-> child context = 0.

(** ** Sample answers of the system

    A daemon started with its three standard descriptors open, a [pipe2]
    that answers descriptors 3 and 4, and a [fork] seen from the parent
    (child 4242), from the child, or failing. *)

Definition sample_fdtable : gmap Z file :=
  <[0 := DaemonFile 0]> (<[1 := DaemonFile 1]> (<[2 := DaemonFile 2]> ∅)).

Definition sample_env (pipe2_result fork_result : Z) : os_env :=
  mk_os_env sample_fdtable pipe2_result 24%positive (3, 4)
            fork_result 11%positive 0 false 1 1.

Definition sample_env_parent : os_env := sample_env 0 4242.
Definition sample_env_child : os_env := sample_env 0 0.
Definition sample_env_fork_fails : os_env := sample_env 0 (-1).

Definition sample_busy_state : daemon_state_t :=
  mk_daemon_state 7 4242 METHOD_UPDATE.

(** An iteration of the loop in which the wait times out and the bus
    would close. *)
Definition sample_loop_env : loop_env :=
  mk_loop_env SD_EVENT_INITIAL RunTimeout 0 1 1 1 1.

(** ** Startup

    [main]: the steps before the loop, each with what the system answers,
    then the loop, then the exit status. *)

Record main_env : Type := mk_main_env {
  event_default_r : Z;         (* sd_event_default *)
  sigemptyset_r : Z;
  sigaddset_r : Z;
  sigset_errno : positive;     (* errno after a failed sigemptyset or sigaddset *)
  sigprocmask_r : Z;
  add_signal_r : Z;            (* sd_event_add_signal *)
  open_system_r : Z;           (* sd_bus_open_system *)
  bus_handle : Z;              (* the handle it stores in context.bus *)
  add_object_vtable_r : Z;
  request_name_r : Z;
  attach_event_r : Z;
  loop_envs : list loop_env;   (* the answers during the iterations of the loop *)
  get_exit_code_r : Z;         (* sd_event_get_exit_code *)
  exit_code : Z                (* the code it stores *)
}.

Inductive main_action : Type :=
| MainEventDefault (r : Z)
| MainSigprocmask (r : Z)
| MainAddSignal (r : Z)
| MainSetWatchdog
| MainOpenSystem (r : Z)
| MainAddObjectVtable (r : Z)
| MainRequestName (r : Z)
| MainAttachEvent (r : Z)
| MainNotifyReady
| MainLoop (tr : list loop_action).

(** The [finish:] label of [main]. *)
Definition main_finish (r : Z) (trace : list main_action)
  : option (Z * list main_action) :=
  Some (if r <? 0 then EXIT_FAILURE else EXIT_SUCCESS, trace).

(** [None] when the loop has not been left when its answers run out. *)
Definition main (env : main_env) : option (Z * list main_action) :=
  let r := event_default_r env in
  let trace := [MainEventDefault r] in
  if r <? 0 then main_finish r trace else
  if (sigemptyset_r env <? 0) || (sigaddset_r env <? 0) then
    main_finish (- Z.pos (sigset_errno env)) trace
  else
  let trace := trace ++ [MainSigprocmask (sigprocmask_r env)] in
  if sigprocmask_r env <? 0 then main_finish r trace else
  let r := add_signal_r env in
  let trace := trace ++ [MainAddSignal r] in
  if r <? 0 then main_finish r trace else
  let trace := trace ++ [MainSetWatchdog] in
  let r := open_system_r env in
  let trace := trace ++ [MainOpenSystem r] in
  if r <? 0 then main_finish r trace else
  let context := mk_daemon_state (bus_handle env) 0 METHOD_NOTSET in
  let r := add_object_vtable_r env in
  let trace := trace ++ [MainAddObjectVtable r] in
  if r <? 0 then main_finish r trace else
  let r := request_name_r env in
  let trace := trace ++ [MainRequestName r] in
  if r <? 0 then main_finish r trace else
  let r := attach_event_r env in
  let trace := trace ++ [MainAttachEvent r] in
  if r <? 0 then main_finish r trace else
  let trace := trace ++ [MainNotifyReady] in
  match run_bus_event_loop (loop_envs env) context
          (get_exit_code_r env) (exit_code env) with
  | Some (r, tr) => main_finish r (trace ++ [MainLoop tr])
  | None => None
  end.

(** Did [main] announce readiness, did it enter the loop? *)
Definition announces_ready (trace : list main_action) : bool :=
  existsb (fun a => match a with MainNotifyReady => true | _ => false end) trace.

Definition enters_loop (trace : list main_action) : bool :=
  existsb (fun a => match a with MainLoop _ => true | _ => false end) trace.

(** Every step of [main] before the loop succeeded. *)
Definition startup_ok (env : main_env) : bool :=
  (0 <=? event_default_r env)
  && (0 <=? sigemptyset_r env) && (0 <=? sigaddset_r env)
  && (0 <=? sigprocmask_r env)
  && (0 <=? add_signal_r env)
  && (0 <=? open_system_r env)
  && (0 <=? add_object_vtable_r env)
  && (0 <=? request_name_r env)
  && (0 <=? attach_event_r env).

(** The step that failed is [sigprocmask]. *)
Definition sigprocmask_failed (env : main_env) : bool :=
  (0 <=? event_default_r env)
  && (0 <=? sigemptyset_r env) && (0 <=? sigaddset_r env)
  && (sigprocmask_r env <? 0).

(** An iteration in which [sd_bus_try_close] is not supported. *)
Definition sample_release_env : loop_env :=
  mk_loop_env SD_EVENT_INITIAL RunTimeout (- EOPNOTSUPP) 1 1 1 1.

(** ** Tables read off the handlers *)

(** The [accepted_str_opts] and [accepted_bool_opts] arrays of the handler
    of each operation; [None] where the handler passes [NULL]. *)
Definition accepted_str_opts_of (M : method_t) : option (list string) :=
  match M with
  | METHOD_NOTSET => None
  | METHOD_CHECK_UPDATE => Some ["url"]
  | METHOD_UPDATE => Some ["url"; "contenturl"; "versionurl"; "log"]
  | METHOD_VERIFY => Some ["url"; "contenturl"; "versionurl"; "log"]
  | METHOD_BUNDLE_ADD => Some ["url"]
  | METHOD_BUNDLE_REMOVE => Some ["url"]
  end.

Definition accepted_bool_opts_of (M : method_t) : option (list string) :=
  match M with
  | METHOD_VERIFY => Some ["fix"]
  | METHOD_BUNDLE_ADD => Some ["list"]
  | _ => None
  end.

(** What the handler of an operation reads of the body of a call: the
    options array first, then nothing more ([update], [verify]), one bundle
    name ([checkUpdate], [bundleRemove]) or an array of bundle names
    ([bundleAdd]).  What follows in the body is not looked at. *)
Definition body_options (m : sd_bus_message) : list (string * variant) :=
  match m with
  | ArgOptions entries :: _ => entries
  | _ => []
  end.

Definition body_positionals (M : method_t) (m : sd_bus_message) : list string :=
  match M, m with
  | METHOD_CHECK_UPDATE, _ :: ArgString bundle :: _ => [bundle]
  | METHOD_BUNDLE_REMOVE, _ :: ArgString bundle :: _ => [bundle]
  | METHOD_BUNDLE_ADD, _ :: ArgStrv bundles :: _ => bundles
  | _, _ => []
  end.

(** The body has what the handler reads, with well-typed options. *)
Definition body_readable (M : method_t) (m : sd_bus_message) : bool :=
  match m with
  | ArgOptions entries :: rest =>
      forallb (option_readable (accepted_str_opts_of M) (accepted_bool_opts_of M))
              entries
      && match M, rest with
         | METHOD_UPDATE, _ => true
         | METHOD_VERIFY, _ => true
         | METHOD_CHECK_UPDATE, ArgString _ :: _ => true
         | METHOD_BUNDLE_REMOVE, ArgString _ :: _ => true
         | METHOD_BUNDLE_ADD, ArgStrv _ :: _ => true
         | _, _ => false
         end
  | _ => false
  end.

(** The argument vector of the spec (section 6) for such a body: program,
    sub-command, flags, positionals. *)
Definition spec_argv (M : method_t) (m : sd_bus_message) : list string :=
  [SWUPD_CLIENT; strdup_entry (_method_opt_map M)]
  ++ flat_map (spec_option_tokens (accepted_str_opts_of M) (accepted_bool_opts_of M))
              (body_options m)
  ++ body_positionals M m.

(** The actions of a spawn that succeeds, as the parent makes them. *)
Definition spawn_trace (M : method_t) (env : os_env) : list action :=
  [ActPipe2 (pipe2_r env); ActFork (fork_pid env); ActClose (snd (fds env));
   ActStoreChild (fork_pid env); ActStoreMethod M;
   ActAddIo (fst (fds env)) (add_io_r env)].

(** The system lets a spawn succeed, seen from the parent. *)
Definition spawn_succeeds (env : os_env) : Prop :=
  0 <= pipe2_r env /\ 0 < fork_pid env /\ 0 <= add_io_r env.

(** A daemon state is well formed: idle with no child and no kind, or busy
    with a positive pid and a kind. *)
Definition state_wf (context : daemon_state_t) : Prop :=
  (child context = 0 /\ method context = METHOD_NOTSET)
  \/ (0 < child context /\ method context <> METHOD_NOTSET).

(** The releases of the service name and the stop announcements among the
    calls of the loop. *)
Definition name_releases (tr : list loop_action) : list Z :=
  flat_map (fun a => match a with ReleaseName r => [r] | _ => [] end) tr.

Definition stop_announcements (tr : list loop_action) : list unit :=
  flat_map (fun a => match a with NotifyStopping => [tt] | _ => [] end) tr.

(** The flag [exiting] and the daemon state at the start of the iteration
    that follows the given answers; [None] when the loop has been left
    before. *)
Fixpoint loop_context (envs : list loop_env) (exiting : bool)
  (context : daemon_state_t) : option (bool * daemon_state_t) :=
  match envs with
  | [] => Some (exiting, context)
  | env :: envs' =>
      match fst (loop_body exiting context env) with
      | LoopContinue exiting' context' => loop_context envs' exiting' context'
      | _ => None
      end
  end.

(** * Properties *)

(** ** Argument Translator *)

Section ArgumentTranslator.

Variables opts_str opts_bool : option (list string).

Lemma asprintf_option_r (optname : string) :
  (fst (asprintf_option optname) <? 0) = false.
Proof. unfold asprintf_option; simpl. apply Z.ltb_ge. lia. Qed.

Lemma read_option_string_value (strlist : list string) (value optname : string) :
  bus_message_read_option_string strlist (VString value) optname
  = (0, strlist ++ ["--" +:+ optname; value]).
Proof.
  unfold bus_message_read_option_string, list_append_data.
  cbn [sd_bus_message_enter_variant sd_bus_message_read_variant_s].
  pose proof (asprintf_option_r optname) as Hr.
  unfold asprintf_option in *; cbn [fst] in Hr.
  change (String.eqb "s" "s") with true. cbv iota.
  change (1 <? 0) with false. cbv iota.
  change (sd_bus_message_exit_container <? 0) with false. cbv iota zeta.
  rewrite Hr. by rewrite <- app_assoc.
Qed.

Lemma read_option_string_mismatch (strlist : list string) (v : variant)
  (optname : string) :
  (forall value, v <> VString value) ->
  bus_message_read_option_string strlist v optname = (- ENXIO, strlist).
Proof. intros Hv. destruct v; [by destruct (Hv s) | done | done]. Qed.

Lemma read_option_bool_value (strlist : list string) (b : bool) (optname : string) :
  bus_message_read_option_bool strlist (VBool b) optname
  = (0, strlist ++ (if b then ["--" +:+ optname] else [])).
Proof.
  unfold bus_message_read_option_bool, list_append_data.
  cbn [sd_bus_message_enter_variant sd_bus_message_read_variant_b].
  pose proof (asprintf_option_r optname) as Hr.
  unfold asprintf_option in *; cbn [fst] in Hr.
  change (String.eqb "b" "b") with true. cbv iota.
  change (1 <? 0) with false. cbv iota.
  change (sd_bus_message_exit_container <? 0) with false. cbv iota zeta.
  destruct b; cbn [Z.eqb negb]; [by rewrite Hr | by rewrite app_nil_r].
Qed.

Lemma read_option_bool_mismatch (strlist : list string) (v : variant)
  (optname : string) :
  (forall b, v <> VBool b) ->
  bus_message_read_option_bool strlist v optname = (- ENXIO, strlist).
Proof. intros Hv. destruct v; [done | by destruct (Hv b) | done]. Qed.

(** One turn of the loop, by the kind of the entry. *)
Lemma read_options_loop_cons (strlist : list string) (argname : string)
  (v : variant) (entries : list (string * variant)) :
  bus_message_read_options_loop strlist ((argname, v) :: entries) opts_str opts_bool
  = if option_readable opts_str opts_bool (argname, v) then
      bus_message_read_options_loop
        (strlist ++ spec_option_tokens opts_str opts_bool (argname, v))
        entries opts_str opts_bool
    else (inl (- ENXIO), strlist).
Proof.
  cbn [bus_message_read_options_loop option_readable spec_option_tokens
       sd_bus_message_read_key fst snd].
  change (1 <? 0) with false. cbv iota.
  destruct (negb (is_in_array argname opts_str =? 0)).
  - destruct v as [value | b | i];
      [ rewrite read_option_string_value; reflexivity
      | rewrite read_option_string_mismatch by congruence; reflexivity .. ].
  - destruct (negb (is_in_array argname opts_bool =? 0)).
    + destruct v as [value | b | i];
        [ rewrite read_option_bool_mismatch by congruence; reflexivity
        | rewrite read_option_bool_value; destruct b; reflexivity
        | rewrite read_option_bool_mismatch by congruence; reflexivity ].
    + rewrite app_nil_r. reflexivity.
Qed.

(** When every option is well typed the loop runs to the end of the array
    and has appended the tokens of the options, in the order supplied. *)
Lemma read_options_loop_readable (entries : list (string * variant)) :
  forall strlist : list string,
    forallb (option_readable opts_str opts_bool) entries = true ->
    bus_message_read_options_loop strlist entries opts_str opts_bool
    = (inr 0, strlist ++ flat_map (spec_option_tokens opts_str opts_bool) entries).
Proof.
  induction entries as [| [argname v] entries IH]; intros strlist Hok.
  - cbn. by rewrite app_nil_r.
  - cbn [forallb] in Hok. apply andb_prop in Hok as [Hv Hrest].
    rewrite read_options_loop_cons, Hv, IH by assumption.
    cbn [flat_map]. by rewrite app_assoc.
Qed.

(** An ill-typed option makes the loop return an error. *)
Lemma read_options_loop_unreadable (entries : list (string * variant)) :
  forall strlist : list string,
    forallb (option_readable opts_str opts_bool) entries = false ->
    exists strlist',
      bus_message_read_options_loop strlist entries opts_str opts_bool
      = (inl (- ENXIO), strlist').
Proof.
  induction entries as [| [argname v] entries IH]; intros strlist Hbad.
  - discriminate.
  - cbn [forallb] in Hbad. rewrite read_options_loop_cons.
    destruct (option_readable opts_str opts_bool (argname, v)); eauto.
Qed.

(** An option on neither list changes nothing in what the loop does. *)
Lemma read_options_loop_skip (e1 e2 : list (string * variant))
  (name : string) (v : variant) :
  is_in_array name opts_str = 0 ->
  is_in_array name opts_bool = 0 ->
  forall strlist : list string,
    bus_message_read_options_loop strlist (e1 ++ (name, v) :: e2) opts_str opts_bool
    = bus_message_read_options_loop strlist (e1 ++ e2) opts_str opts_bool.
Proof.
  intros Hs Hb. induction e1 as [| [n w] e1 IH]; intros strlist.
  - cbn [app]. rewrite read_options_loop_cons.
    cbn [option_readable spec_option_tokens]. rewrite Hs, Hb. cbn.
    by rewrite app_nil_r.
  - rewrite <- !app_comm_cons, !read_options_loop_cons.
    destruct (option_readable opts_str opts_bool (n, w)); [apply IH | reflexivity].
Qed.

Lemma read_options_readable (strlist : list string)
  (entries : list (string * variant)) (rest : sd_bus_message) :
  forallb (option_readable opts_str opts_bool) entries = true ->
  bus_message_read_options strlist (ArgOptions entries :: rest) opts_str opts_bool
  = (0, strlist ++ flat_map (spec_option_tokens opts_str opts_bool) entries, rest).
Proof.
  intros Hok. unfold bus_message_read_options.
  cbn [sd_bus_message_enter_array_sv]. change (1 <? 0) with false. cbv iota.
  by rewrite read_options_loop_readable.
Qed.

Lemma read_options_unreadable (strlist : list string)
  (entries : list (string * variant)) (rest : sd_bus_message) :
  forallb (option_readable opts_str opts_bool) entries = false ->
  exists strlist',
    bus_message_read_options strlist (ArgOptions entries :: rest) opts_str opts_bool
    = (- ENXIO, strlist', rest).
Proof.
  intros Hbad. unfold bus_message_read_options.
  cbn [sd_bus_message_enter_array_sv]. change (1 <? 0) with false. cbv iota.
  destruct (read_options_loop_unreadable entries strlist Hbad) as [l ->]. eauto.
Qed.

End ArgumentTranslator.


(** ** Process Supervisor and Request Dispatcher *)

Lemma run_swupd_returned (M : method_t) (args : list string) (env : os_env)
  (context context' : daemon_state_t) (r : Z) (trace : list action) :
  run_swupd M args env context = Returned r context' trace ->
  (r < 0 /\ context' = context /\ mutates trace = false
   /\ (pipe2_r env < 0 \/ fork_pid env < 0))
  \/ (r = 0 /\ 0 < fork_pid env
      /\ context' = mk_daemon_state (bus context) (fork_pid env) M
      /\ trace = [ActPipe2 (pipe2_r env); ActFork (fork_pid env);
                  ActClose (snd (fds env));
                  ActStoreChild (fork_pid env); ActStoreMethod M;
                  ActAddIo (fst (fds env)) (add_io_r env)]).
Proof.
  unfold run_swupd.
  destruct (Z.ltb_spec (pipe2_r env) 0) as [Hp | Hp].
  - intros [= <- <- <-]. left. repeat (split; [done || lia |]). by left.
  - destruct (fds env) as [fd0 fd1].
    destruct (Z.eqb_spec (fork_pid env) 0) as [Hz | Hz]; [discriminate |].
    destruct (Z.ltb_spec (fork_pid env) 0) as [Hf | Hf].
    + intros [= <- <- <-]. left. repeat (split; [done || lia |]). by right.
    + destruct (add_io_r env <? 0); [discriminate |].
      intros [= <- <- <-]. right. repeat (split; [done || lia |]). reflexivity.
Qed.

Lemma mutates_reply (trace : list action) (accepted : bool) :
  mutates (trace ++ [ActReply accepted]) = mutates trace.
Proof. unfold mutates. rewrite existsb_app. cbn. by rewrite !orb_false_r. Qed.

(** Case analysis of the tests a handler makes on its way to [run_swupd]. *)
Ltac handler_reads :=
  repeat match goal with
  | |- context [match ?e with pair _ _ => _ end] => destruct e eqn:?
  | |- context [if ?r <? 0 then _ else _] => destruct (Z.ltb_spec r 0)
  end.

(** A handler of an operation either replies at once, to a busy daemon or
    to a call it cannot read, or it goes to [run_swupd] from an idle state
    and replies with what [run_swupd] returns. *)
Lemma handler_cases (M : method_t) (h : handler) :
  handler_of M = Some h ->
  forall (m : sd_bus_message) (env : os_env) (context : daemon_state_t),
    (exists r, r < 0 /\ h m env context = finish r env context [])
    \/ (child context = 0
        /\ exists args, h m env context = finish_run (run_swupd M args env context) env).
Proof.
  intros Hh m env context.
  destruct M; cbn [handler_of] in Hh; inversion Hh; subst h; clear Hh;
    unfold method_check_update, method_update, method_verify,
           method_bundle_add, method_bundle_remove;
    (destruct (Z.eqb_spec (child context) 0) as [Hc | Hc]; cbn [negb];
     [| left; exists (- EAGAIN); split; [reflexivity | reflexivity]]);
    handler_reads; eauto.
Qed.

Lemma handler_busy (M : method_t) (h : handler) :
  handler_of M = Some h ->
  forall (m : sd_bus_message) (env : os_env) (context : daemon_state_t),
    child context <> 0 ->
    h m env context = Returned (reply_r env) context [ActReply false].
Proof.
  intros Hh m env context Hc.
  destruct M; cbn [handler_of] in Hh; inversion Hh; subst h; clear Hh;
    unfold method_check_update, method_update, method_verify,
           method_bundle_add, method_bundle_remove;
    (destruct (Z.eqb_spec (child context) 0); [contradiction | reflexivity]).
Qed.

Lemma finish_negative (r : Z) (env : os_env) (context : daemon_state_t)
  (trace : list action) :
  r < 0 -> finish r env context trace = Returned (reply_r env) context (trace ++ [ActReply false]).
Proof.
  intros Hr. unfold finish. destruct (Z.leb_spec 0 r); [lia | reflexivity].
Qed.

Lemma vtable_operation (member sig : string) (h : handler) :
  In (member, sig, h) swupdd_vtable -> member <> "cancel" ->
  exists M, handler_of M = Some h.
Proof.
  unfold swupdd_vtable. cbn [In].
  intros [H | [H | [H | [H | [H | [H | []]]]]]] Hm; inversion H; subst.
  - by exists METHOD_CHECK_UPDATE.
  - by exists METHOD_UPDATE.
  - by exists METHOD_VERIFY.
  - by exists METHOD_BUNDLE_ADD.
  - by exists METHOD_BUNDLE_REMOVE.
  - contradiction.
Qed.

Lemma method_cancel_returns (m : sd_bus_message) (env : os_env)
  (context : daemon_state_t) :
  exists trace, method_cancel m env context = Returned (reply_r env) context trace.
Proof.
  unfold method_cancel, finish.
  destruct (child context =? 0); [eauto |].
  destruct (sd_bus_message_read_b m) as [[r force] m'].
  destruct (r <? 0); [eauto |]. destruct (negb (force =? 0)); eauto.
Qed.

(** *** The invariant of the daemon state *)

Lemma handler_preserves_invariant (M : method_t) (h : handler) :
  handler_of M = Some h ->
  forall m env context r context' trace,
    state_invariant context ->
    h m env context = Returned r context' trace ->
    state_invariant context'.
Proof.
  intros Hh m env context r context' trace Hinv Hret.
  destruct (handler_cases M h Hh m env context) as [(e & He & Heq) | (Hc & args & Heq)];
    rewrite Heq in Hret.
  - unfold finish in Hret. by inversion Hret; subst.
  - destruct (run_swupd M args env context) as [r0 c0 t0 | t0 | img] eqn:Hrun;
      cbn [finish_run] in Hret; try discriminate.
    unfold finish in Hret. inversion Hret; subst; clear Hret.
    apply run_swupd_returned in Hrun as [(_ & -> & _) | (_ & Hpid & -> & _)];
      [assumption |].
    unfold state_invariant; cbn [method child].
    split; [intros HM; rewrite HM in Hh; discriminate | lia].
Qed.

Lemma dispatch_preserves_invariant (ev : daemon_event)
  (context context' : daemon_state_t) (r : Z) (trace : list action) :
  state_invariant context ->
  dispatch ev context = Returned r context' trace ->
  state_invariant context'.
Proof.
  intros Hinv.
  destruct ev as [member m env | si ws emit_r | fd count buffer e emit_r |];
    cbn [dispatch].
  - destruct (vtable_find member swupdd_vtable) as [[sig h] |] eqn:Hfind;
      [| by intros [= _ <- _]].
    destruct (String.eqb (signature m) sig); [| by intros [= _ <- _]].
    revert Hfind. unfold swupdd_vtable. cbn [vtable_find].
    repeat match goal with
    | |- context [String.eqb member ?s] => destruct (String.eqb member s)
    end; intros [= <- <-].
    + by apply (handler_preserves_invariant METHOD_CHECK_UPDATE).
    + by apply (handler_preserves_invariant METHOD_UPDATE).
    + by apply (handler_preserves_invariant METHOD_VERIFY).
    + by apply (handler_preserves_invariant METHOD_BUNDLE_ADD).
    + by apply (handler_preserves_invariant METHOD_BUNDLE_REMOVE).
    + destruct (method_cancel_returns m env context) as [t ->]. by intros [= _ <- _].
  - unfold on_child_exit.
    destruct (method_value (method context) =? 0); [discriminate |].
    destruct (negb (ssi_pid si =? child context)); [discriminate |].
    destruct (ws =? -1); [discriminate |].
    intros [= _ <- _]. by unfold state_invariant.
  - unfold on_childs_output.
    destruct (0 <? count); [by intros [= _ <- _] |].
    destruct (count <? 0); by intros [= _ <- _].
  - by intros [= _ <- _].
Qed.

Lemma run_events_invariant (evs : list daemon_event) :
  forall context context' : daemon_state_t,
    state_invariant context ->
    run_events evs context = Some context' ->
    state_invariant context'.
Proof.
  induction evs as [| ev evs IH]; intros context context' Hinv; cbn [run_events].
  - by intros [= <-].
  - destruct (dispatch ev context) as [r c t | t | img] eqn:Hd; try discriminate.
    apply IH. by eapply dispatch_preserves_invariant.
Qed.

Lemma main_state_invariant (b : Z) : state_invariant (main_state b).
Proof. by unfold state_invariant. Qed.

(** *** Busy requests *)

(** C1: in every state the daemon can reach, when an operation is in
    flight (operation kind not none), each of the five operation handlers of
    the vtable returns after the single action of replying false: no pipe,
    no fork, no assignment to the daemon state, whose three fields (bus,
    child, method) are as the handler found them. *)
Theorem busy_request_rejected (b : Z) (evs : list daemon_event)
  (context : daemon_state_t) :
  run_events evs (main_state b) = Some context ->
  method context <> METHOD_NOTSET ->
  forall (member sig : string) (h : handler),
    In (member, sig, h) swupdd_vtable -> member <> "cancel" ->
    forall (m : sd_bus_message) (env : os_env),
    exists trace,
      h m env context = Returned (reply_r env) context trace
      /\ trace = [ActReply false]
      /\ spawns trace = false /\ mutates trace = false.
Proof.
  intros Hreach Hmethod member sig h Hin Hmember m env.
  destruct (vtable_operation member sig h Hin Hmember) as [M HM].
  assert (Hchild : child context <> 0).
  { pose proof (run_events_invariant evs _ _ (main_state_invariant b) Hreach) as Hinv.
    unfold state_invariant in Hinv. tauto. }
  exists [ActReply false]. by rewrite (handler_busy M h HM m env context Hchild).
Qed.

Lemma busy_request_rejected_witness :
  exists trace,
    method_verify [ArgOptions [("fix", VBool true)]] sample_env_parent sample_busy_state
    = Returned 1 sample_busy_state trace
    /\ trace = [ActReply false]
    /\ spawns trace = false /\ mutates trace = false.
Proof.
  apply (busy_request_rejected 7
           [BusCall "update" [ArgOptions []] sample_env_parent]
           sample_busy_state
           ltac:(reflexivity) ltac:(discriminate)
           "verify" "a{sv}" method_verify
           ltac:(cbn; tauto) ltac:(discriminate)).
Defined.

(** *** The invariant *)

(** C2: after any sequence of events (method calls of any member with any
    body and any answers of the system, cancellations, child exits, child
    output) the operation kind is none exactly when the recorded child is
    zero.  In such a state an operation handler that returns has either
    assigned to no field, or has spawned from the idle state and assigned
    the non-zero pid to the child and the operation to the kind, both; the
    exit handler, when it returns, has assigned zero and none, both. *)
Theorem operation_kind_none_iff_no_child (b : Z) (evs : list daemon_event)
  (context : daemon_state_t) :
  run_events evs (main_state b) = Some context ->
  (method context = METHOD_NOTSET <-> child context = 0)
  /\ (forall M h m env r context' trace,
        handler_of M = Some h ->
        h m env context = Returned r context' trace ->
        (context' = context /\ mutates trace = false)
        \/ (child context = 0 /\ M <> METHOD_NOTSET /\ fork_pid env <> 0
            /\ context' = mk_daemon_state (bus context) (fork_pid env) M
            /\ In (ActStoreChild (fork_pid env)) trace
            /\ In (ActStoreMethod M) trace))
  /\ (forall si ws emit_r r context' trace,
        on_child_exit si ws emit_r context = Returned r context' trace ->
        context' = mk_daemon_state (bus context) 0 METHOD_NOTSET
        /\ In (ActStoreChild 0) trace
        /\ In (ActStoreMethod METHOD_NOTSET) trace).
Proof.
  intros Hreach. split; [| split].
  - exact (run_events_invariant evs _ _ (main_state_invariant b) Hreach).
  - intros M h m env r context' trace HM Hret.
    destruct (handler_cases M h HM m env context) as [(e & He & Heq) | (Hc & args & Heq)];
      rewrite Heq in Hret.
    + left. unfold finish in Hret. by inversion Hret.
    + destruct (run_swupd M args env context) as [r0 c0 t0 | t0 | img] eqn:Hrun;
        cbn [finish_run] in Hret; try discriminate.
      unfold finish in Hret. inversion Hret; subst; clear Hret.
      apply run_swupd_returned in Hrun
        as [(_ & -> & Hmut & _) | (_ & Hpid & -> & ->)].
      * left. by rewrite mutates_reply.
      * right. split; [assumption |].
        split; [intros ->; discriminate |]. split; [lia |].
        split; [reflexivity |]. cbn [In app]. tauto.
  - intros si ws emit_r r context' trace. unfold on_child_exit.
    destruct (method_value (method context) =? 0); [discriminate |].
    destruct (negb (ssi_pid si =? child context)); [discriminate |].
    destruct (ws =? -1); [discriminate |].
    intros [= _ <- <-]. cbn [In]. tauto.
Qed.

Lemma operation_kind_none_iff_no_child_witness :
  (method sample_busy_state = METHOD_NOTSET <-> child sample_busy_state = 0).
Proof.
  exact (proj1 (operation_kind_none_iff_no_child 7
                  [BusCall "update" [ArgOptions []] sample_env_parent;
                   ChildOutput 3 5 "Done." 5%positive 0;
                   BusCall "cancel" [ArgBool false] sample_env_parent]
                  sample_busy_state ltac:(reflexivity))).
Defined.

(** *** Failures of the spawn *)

(** C9: when [pipe2] fails, or [fork] fails after it, [run_swupd] returns
    the negated [errno] of the failed call and the daemon state it was
    given, after the failed call and no other action; every operation
    handler called in an idle state then returns with the state unchanged,
    idle, never assigned to, after replying false; the handler of
    [update] called without options shows the attempted spawn before the
    reply. *)
Theorem spawn_failure_leaves_state (env : os_env) (context : daemon_state_t) :
  pipe2_r env < 0 \/ (0 <= pipe2_r env /\ fork_pid env < 0) ->
  child context = 0 -> method context = METHOD_NOTSET ->
  (forall M args,
     run_swupd M args env context
     = Returned (if pipe2_r env <? 0 then - Z.pos (pipe2_errno env)
                 else - Z.pos (fork_errno env))
                context
                (if pipe2_r env <? 0 then [ActPipe2 (pipe2_r env)]
                 else [ActPipe2 (pipe2_r env); ActFork (fork_pid env)]))
  /\ (forall member sig h,
        In (member, sig, h) swupdd_vtable -> member <> "cancel" ->
        forall m, exists trace,
          h m env context = Returned (reply_r env) context (trace ++ [ActReply false])
          /\ mutates (trace ++ [ActReply false]) = false
          /\ child context = 0 /\ method context = METHOD_NOTSET)
  /\ method_update [ArgOptions []] env context
     = Returned (reply_r env) context
         ((if pipe2_r env <? 0 then [ActPipe2 (pipe2_r env)]
           else [ActPipe2 (pipe2_r env); ActFork (fork_pid env)])
          ++ [ActReply false]).
Proof.
  intros Hfail Hchild Hmethod.
  assert (Hrun : forall M args,
     run_swupd M args env context
     = Returned (if pipe2_r env <? 0 then - Z.pos (pipe2_errno env)
                 else - Z.pos (fork_errno env))
                context
                (if pipe2_r env <? 0 then [ActPipe2 (pipe2_r env)]
                 else [ActPipe2 (pipe2_r env); ActFork (fork_pid env)])).
  { intros M args. unfold run_swupd.
    destruct (Z.ltb_spec (pipe2_r env) 0) as [Hp | Hp]; [reflexivity |].
    destruct Hfail as [Hp' | [_ Hf]]; [lia |].
    destruct (fds env) as [fd0 fd1].
    destruct (Z.eqb_spec (fork_pid env) 0); [lia |].
    destruct (Z.ltb_spec (fork_pid env) 0); [reflexivity | lia]. }
  assert (Hneg : (if pipe2_r env <? 0 then - Z.pos (pipe2_errno env)
                  else - Z.pos (fork_errno env)) < 0)
    by (destruct (pipe2_r env <? 0); lia).
  split; [exact Hrun | split].
  - intros member sig h Hin Hmember m.
    destruct (vtable_operation member sig h Hin Hmember) as [M HM].
    destruct (handler_cases M h HM m env context) as [(e & He & ->) | (_ & args & ->)].
    + exists []. by rewrite finish_negative.
    + rewrite Hrun. cbn [finish_run]. eexists. rewrite finish_negative by assumption.
      split; [reflexivity |]. by destruct (pipe2_r env <? 0).
  - unfold method_update. rewrite Hchild. cbn [Z.eqb negb].
    rewrite read_options_readable by reflexivity.
    change (0 <? 0) with false. cbv iota.
    rewrite Hrun. cbn [finish_run]. by rewrite finish_negative.
Qed.

Lemma spawn_failure_leaves_state_witness :
  method_update [ArgOptions []] sample_env_fork_fails (main_state 7)
  = Returned 1 (main_state 7) [ActPipe2 0; ActFork (-1); ActReply false].
Proof.
  exact (proj2 (proj2 (spawn_failure_leaves_state sample_env_fork_fails (main_state 7)
                         ltac:(right; cbn; lia) ltac:(reflexivity) ltac:(reflexivity)))).
Defined.

(** *** Child exit *)

Lemma to_int_small (z : Z) : INT_MIN <= z <= INT_MAX -> to_int z = z.
Proof.
  unfold to_int, INT_MIN, INT_MAX. intros Hz.
  rewrite Z.mod_small; lia.
Qed.

Lemma method_value_zero (M : method_t) :
  (method_value M =? 0) = false <-> M <> METHOD_NOTSET.
Proof. destruct M; cbn; split; congruence. Qed.

Lemma method_label (M : method_t) :
  M <> METHOD_NOTSET -> exists label, _method_str_map M = Some label.
Proof. destruct M; cbn; eauto. contradiction. Qed.

(** What [on_child_exit] does once its three assertions hold. *)
Lemma on_child_exit_returns (si : signalfd_siginfo) (ws emit_r : Z)
  (context : daemon_state_t) :
  method context <> METHOD_NOTSET ->
  ssi_pid si = child context ->
  ws <> -1 ->
  on_child_exit si ws emit_r context
  = Returned (if emit_r <? 0 then EXIT_FAILURE else EXIT_SUCCESS)
      (mk_daemon_state (bus context) 0 METHOD_NOTSET)
      [ActWaitpid (ssi_pid si) ws;
       ActStoreChild 0; ActStoreMethod METHOD_NOTSET;
       ActEmitSignal "requestCompleted"
         [SigString (_method_str_map (method context));
          SigInt (if ssi_code si =? CLD_EXITED then ssi_status si
                  else to_int (128 + ssi_status si))] emit_r].
Proof.
  intros HM Hpid Hws. unfold on_child_exit.
  apply method_value_zero in HM. rewrite HM.
  rewrite (proj2 (Z.eqb_eq _ _) Hpid). cbn [negb].
  by rewrite (proj2 (Z.eqb_neq _ _) Hws).
Qed.

(** C3: at the termination of the recorded child while an operation is in
    flight, [on_child_exit] returns with the daemon state cleared (child 0,
    kind none) and has made exactly one emission, [requestCompleted], with
    the label of the operation that was in flight and, as status, the exit
    code when the child exited normally ([CLD_EXITED]) and 128 plus the
    signal number otherwise; when sd-bus accepts the emission that one
    notification is what reaches the bus. *)
Theorem child_exit_notification (si : signalfd_siginfo) (ws emit_r : Z)
  (context : daemon_state_t) :
  method context <> METHOD_NOTSET ->
  ssi_pid si = child context ->
  ws <> -1 ->
  INT_MIN <= ssi_status si <= INT_MAX - 128 ->
  exists r trace label,
    on_child_exit si ws emit_r context
    = Returned r (mk_daemon_state (bus context) 0 METHOD_NOTSET) trace
    /\ _method_str_map (method context) = Some label
    /\ emitted trace
       = [("requestCompleted",
           [SigString (Some label);
            SigInt (if ssi_code si =? CLD_EXITED then ssi_status si
                    else 128 + ssi_status si)])]
    /\ (0 <= emit_r -> delivered trace = emitted trace).
Proof.
  intros HM Hpid Hws Hstatus.
  destruct (method_label _ HM) as [label Hlabel].
  eexists _, _, label. rewrite on_child_exit_returns by assumption.
  split; [reflexivity |]. split; [assumption |].
  rewrite Hlabel, to_int_small by (unfold INT_MIN, INT_MAX in *; lia).
  split; [reflexivity |].
  intros Hr. cbn [delivered emitted flat_map app].
  destruct (Z.ltb_spec emit_r 0); [lia | reflexivity].
Qed.

Lemma child_exit_notification_witness :
  exists r trace label,
    on_child_exit (mk_siginfo CLD_KILLED SIGKILL 4242) 4242 1 sample_busy_state
    = Returned r (mk_daemon_state 7 0 METHOD_NOTSET) trace
    /\ _method_str_map METHOD_UPDATE = Some label
    /\ emitted trace = [("requestCompleted", [SigString (Some label); SigInt 137])]
    /\ (0 <= 1 -> delivered trace = emitted trace).
Proof.
  exact (child_exit_notification (mk_siginfo CLD_KILLED SIGKILL 4242) 4242 1
           sample_busy_state ltac:(discriminate) ltac:(reflexivity)
           ltac:(discriminate) ltac:(vm_compute; split; discriminate)).
Defined.

(** C10: [on_child_exit] assigns 0 to the child and none to the kind
    before it calls the emission, which is its last action, so the daemon
    state it leaves is the cleared one whatever the emission answers.  When
    the emission fails the handler returns [EXIT_FAILURE], no notification
    has reached the bus, and the daemon is idle all the same: a following
    [update] request is accepted and spawns. *)
Theorem child_exit_clears_before_emission (si : signalfd_siginfo) (ws emit_r : Z)
  (context : daemon_state_t) :
  method context <> METHOD_NOTSET ->
  ssi_pid si = child context ->
  ws <> -1 ->
  exists r trace,
    on_child_exit si ws emit_r context
    = Returned r (mk_daemon_state (bus context) 0 METHOD_NOTSET) trace
    /\ (exists label status,
          trace = [ActWaitpid (ssi_pid si) ws;
                   ActStoreChild 0; ActStoreMethod METHOD_NOTSET;
                   ActEmitSignal "requestCompleted"
                     [SigString label; SigInt status] emit_r])
    /\ (emit_r < 0 -> r = EXIT_FAILURE /\ delivered trace = [] /\ length (emitted trace) = 1%nat)
    /\ (forall env,
          0 <= pipe2_r env -> 0 < fork_pid env -> 0 <= add_io_r env ->
          method_update [ArgOptions []] env (mk_daemon_state (bus context) 0 METHOD_NOTSET)
          = Returned (reply_r env)
              (mk_daemon_state (bus context) (fork_pid env) METHOD_UPDATE)
              [ActPipe2 (pipe2_r env); ActFork (fork_pid env);
               ActClose (snd (fds env));
               ActStoreChild (fork_pid env); ActStoreMethod METHOD_UPDATE;
               ActAddIo (fst (fds env)) (add_io_r env);
               ActReply true]).
Proof.
  intros HM Hpid Hws. eexists _, _.
  rewrite on_child_exit_returns by assumption.
  split; [reflexivity |]. split; [by eexists _, _ |]. split.
  - intros Hr. cbn [delivered emitted flat_map app length].
    destruct (Z.ltb_spec emit_r 0); [done | lia].
  - intros env Hp Hf Ha. unfold method_update. cbn [child Z.eqb negb].
    rewrite read_options_readable by reflexivity.
    change (0 <? 0) with false. cbv iota.
    unfold run_swupd.
    destruct (Z.ltb_spec (pipe2_r env) 0); [lia |].
    destruct (fds env) as [fd0 fd1]. cbn [fst snd].
    destruct (Z.eqb_spec (fork_pid env) 0); [lia |].
    destruct (Z.ltb_spec (fork_pid env) 0); [lia |].
    destruct (Z.ltb_spec (add_io_r env) 0); [lia |].
    reflexivity.
Qed.

Lemma child_exit_clears_before_emission_witness :
  exists r trace,
    on_child_exit (mk_siginfo CLD_EXITED 0 4242) 4242 (- ENOMEM) sample_busy_state
    = Returned r (mk_daemon_state 7 0 METHOD_NOTSET) trace
    /\ r = EXIT_FAILURE /\ delivered trace = [] /\ length (emitted trace) = 1%nat.
Proof.
  destruct (child_exit_clears_before_emission (mk_siginfo CLD_EXITED 0 4242) 4242
              (- ENOMEM) sample_busy_state ltac:(discriminate) ltac:(reflexivity)
              ltac:(discriminate)) as (r & trace & Hret & _ & Hfail & _).
  exists r, trace. split; [exact Hret |]. apply Hfail. reflexivity.
Defined.

(** *** Cancellation *)

(** C4: [method_cancel] with no recorded child replies false and sends no
    signal; with a recorded child and [force] false it sends [SIGINT] to that
    child, with [force] true [SIGKILL], and replies true; whatever the call,
    it makes no assignment to the daemon state and returns with the state
    it found. *)
Theorem cancel_signals_and_keeps_state (env : os_env) (context : daemon_state_t) :
  (child context = 0 ->
   forall m, method_cancel m env context
             = Returned (reply_r env) context [ActReply false])
  /\ (child context <> 0 ->
      forall rest,
        method_cancel (ArgBool false :: rest) env context
        = Returned (reply_r env) context [ActKill (child context) SIGINT; ActReply true]
        /\ method_cancel (ArgBool true :: rest) env context
           = Returned (reply_r env) context [ActKill (child context) SIGKILL; ActReply true])
  /\ (forall m, exists trace,
        method_cancel m env context = Returned (reply_r env) context trace
        /\ mutates trace = false
        /\ (child context = 0 -> kills trace = [])).
Proof.
  split; [| split].
  - intros Hc m. unfold method_cancel. by rewrite Hc.
  - intros Hc rest. unfold method_cancel.
    apply Z.eqb_neq in Hc. rewrite Hc. by split.
  - intros m. unfold method_cancel, finish.
    destruct (Z.eqb_spec (child context) 0) as [Hc | Hc]; [by eexists |].
    destruct (sd_bus_message_read_b m) as [[r force] m'].
    destruct (r <? 0); [by eexists |].
    destruct (negb (force =? 0)); by eexists.
Qed.

Lemma cancel_signals_and_keeps_state_witness :
  method_cancel [ArgBool true] sample_env_parent sample_busy_state
  = Returned 1 sample_busy_state [ActKill 4242 SIGKILL; ActReply true].
Proof.
  exact (proj2 (proj1 (proj2 (cancel_signals_and_keeps_state sample_env_parent
                                sample_busy_state)) ltac:(discriminate) [])).
Defined.

(** *** Options and positional arguments *)

(** C5: reading the options of a call.  An option whose name is on neither
    allow-list changes nothing: the result (return code, argument list,
    cursor) is the one of the same call without that option, whatever its
    value.  When the options are well typed the reading succeeds, and every
    option on the string allow-list with value [V] has put the adjacent
    pair [--name], [V] into the argument list, after the tokens of the
    options before it and before those of the options after it. *)
Theorem string_option_pair_and_unknown_skipped
  (opts_str opts_bool : option (list string)) (strlist : list string)
  (entries : list (string * variant)) (rest : sd_bus_message) :
  (forall e1 name v e2,
     entries = e1 ++ (name, v) :: e2 ->
     is_in_array name opts_str = 0 -> is_in_array name opts_bool = 0 ->
     bus_message_read_options strlist (ArgOptions entries :: rest) opts_str opts_bool
     = bus_message_read_options strlist (ArgOptions (e1 ++ e2) :: rest) opts_str opts_bool)
  /\ (forallb (option_readable opts_str opts_bool) entries = true ->
      exists strlist',
        bus_message_read_options strlist (ArgOptions entries :: rest) opts_str opts_bool
        = (0, strlist', rest)
        /\ forall e1 name V e2,
             entries = e1 ++ (name, VString V) :: e2 ->
             is_in_array name opts_str <> 0 ->
             strlist' = (strlist ++ flat_map (spec_option_tokens opts_str opts_bool) e1)
                        ++ ["--" +:+ name; V]
                        ++ flat_map (spec_option_tokens opts_str opts_bool) e2).
Proof.
  split.
  - intros e1 name v e2 -> Hs Hb. unfold bus_message_read_options.
    cbn [sd_bus_message_enter_array_sv]. change (1 <? 0) with false. cbv iota.
    by rewrite read_options_loop_skip.
  - intros Hok. eexists. split; [by apply read_options_readable |].
    intros e1 name V e2 -> Hs.
    rewrite flat_map_app. cbn [flat_map spec_option_tokens].
    apply Z.eqb_neq in Hs. rewrite Hs. cbn [negb].
    by rewrite <- !app_assoc.
Qed.

Lemma string_option_pair_and_unknown_skipped_witness :
  bus_message_read_options ["swupd"; "update"]
    [ArgOptions [("bogus", VInt32 3); ("url", VString "http://example")]]
    (Some ["url"; "contenturl"; "versionurl"; "log"]) None
  = (0, ["swupd"; "update"; "--url"; "http://example"], []).
Proof.
  destruct (proj2 (string_option_pair_and_unknown_skipped
                     (Some ["url"; "contenturl"; "versionurl"; "log"]) None
                     ["swupd"; "update"]
                     [("bogus", VInt32 3); ("url", VString "http://example")] [])
                  ltac:(reflexivity)) as [strlist' [Hread Hpair]].
  rewrite Hread.
  rewrite (Hpair [("bogus", VInt32 3)] "url" "http://example" []
             ltac:(reflexivity) ltac:(discriminate)).
  reflexivity.
Defined.

Lemma read_bundles_loop_appends (bundles : list string) :
  forall args : list string, read_bundles_loop args bundles = (0, args ++ bundles).
Proof.
  induction bundles as [| bundle bundles IH]; intros args; cbn [read_bundles_loop].
  - by rewrite app_nil_r.
  - rewrite IH. unfold list_append_data. by rewrite <- app_assoc.
Qed.

(** C6: [bus_message_read_option_bool] appends the one token [--name] for
    the value true and nothing for the value false.  The argument vector
    the child of a bundle-add call executes is the program name, the
    sub-command, the tokens of the options in the order supplied, then the
    bundle names in the order supplied; for the options [{list: true}] and
    the bundle names a, b it is swupd, bundle-add, --list, a, b. *)
Theorem bundle_add_argument_list (env : os_env) (context : daemon_state_t) :
  child context = 0 ->
  0 <= pipe2_r env -> fork_pid env = 0 -> execvp_fails env = false ->
  (forall strlist name,
     bus_message_read_option_bool strlist (VBool true) name
     = (0, strlist ++ ["--" +:+ name])
     /\ bus_message_read_option_bool strlist (VBool false) name = (0, strlist))
  /\ (forall entries bundles,
        forallb (option_readable (Some ["url"]) (Some ["list"])) entries = true ->
        argv_of (method_bundle_add [ArgOptions entries; ArgStrv bundles] env context)
        = Some (["swupd"; "bundle-add"]
                ++ flat_map (spec_option_tokens (Some ["url"]) (Some ["list"])) entries
                ++ bundles))
  /\ argv_of (method_bundle_add
                [ArgOptions [("list", VBool true)]; ArgStrv ["a"; "b"]] env context)
     = Some ["swupd"; "bundle-add"; "--list"; "a"; "b"].
Proof.
  intros Hc Hp Hf Hx.
  assert (Hargv : forall entries bundles,
    forallb (option_readable (Some ["url"]) (Some ["list"])) entries = true ->
    argv_of (method_bundle_add [ArgOptions entries; ArgStrv bundles] env context)
    = Some (["swupd"; "bundle-add"]
            ++ flat_map (spec_option_tokens (Some ["url"]) (Some ["list"])) entries
            ++ bundles)).
  { intros entries bundles Hok. unfold method_bundle_add.
    rewrite Hc. cbn [Z.eqb negb].
    rewrite read_options_readable by assumption.
    change (0 <? 0) with false. cbv iota.
    cbn [sd_bus_message_enter_array_s]. change (1 <? 0) with false. cbv iota.
    rewrite read_bundles_loop_appends.
    change (0 <? 0) with false.
    change (sd_bus_message_exit_container <? 0) with false. cbv iota zeta.
    unfold run_swupd. destruct (Z.ltb_spec (pipe2_r env) 0); [lia |].
    destruct (fds env) as [fd0 fd1] eqn:Hfds. rewrite Hf. cbn [Z.eqb finish_run].
    unfold run_swupd_child. rewrite Hfds, Hx.
    destruct (dup2 STDOUT_FILENO STDERR_FILENO _) as [r1 t1].
    destruct (dup2_retry _ _ _ _) as [r2 t2].
    unfold list_to_strv, list_append_data. cbn [app strdup_entry _method_opt_map default].
    unfold SWUPD_CLIENT. reflexivity. }
  split; [| split].
  - intros strlist name. rewrite !read_option_bool_value. by rewrite app_nil_r.
  - exact Hargv.
  - by rewrite Hargv.
Qed.

Lemma bundle_add_argument_list_witness :
  argv_of (method_bundle_add
             [ArgOptions [("list", VBool true)]; ArgStrv ["a"; "b"]]
             sample_env_child (main_state 7))
  = Some ["swupd"; "bundle-add"; "--list"; "a"; "b"].
Proof.
  exact (proj2 (proj2 (bundle_add_argument_list sample_env_child (main_state 7)
                         ltac:(reflexivity) ltac:(vm_compute; discriminate)
                         ltac:(reflexivity) ltac:(reflexivity)))).
Defined.

(** *** The standard streams of the child *)

Lemma dup2_retry_dup2 (eintr : nat) (oldfd newfd : Z) (t : gmap Z file) :
  dup2_retry eintr oldfd newfd t = dup2 oldfd newfd t.
Proof. induction eintr as [| n IH]; [reflexivity | exact IH]. Qed.

(** Where the two standard streams of the child point when it executes the
    program: the daemon has its standard output open on [out], and the
    pipe descriptors are not the standard ones. *)
Lemma run_swupd_child_streams (args : list string) (env : os_env)
  (t : gmap Z file) (fd0 fd1 : Z) (out : file) :
  fds env = (fd0, fd1) ->
  t !! STDOUT_FILENO = Some out ->
  t !! fd1 = Some PipeWriteEnd ->
  fd0 <> STDOUT_FILENO -> fd0 <> STDERR_FILENO ->
  fd1 <> STDOUT_FILENO -> fd1 <> STDERR_FILENO ->
  child_fds (run_swupd_child args env t) !! STDOUT_FILENO = Some PipeWriteEnd
  /\ child_fds (run_swupd_child args env t) !! STDERR_FILENO = Some out.
Proof.
  unfold STDOUT_FILENO, STDERR_FILENO.
  intros Hfds Hout Hw H01 H02 H11 H12.
  assert (Himage : forall e,
    child_fds (match list_to_strv args with
               | [] => mk_child_image e (Exit 1)
               | file :: _ =>
                   if execvp_fails env then mk_child_image e (Exit 1)
                   else mk_child_image e (Exec file (list_to_strv args))
               end) = e).
  { intros e. destruct (list_to_strv args); [reflexivity |].
    by destruct (execvp_fails env). }
  assert (Heq : child_fds (run_swupd_child args env t)
                = close fd0 (close fd1 (<[1 := PipeWriteEnd]> (<[2 := out]> t)))).
  { unfold run_swupd_child. rewrite Hfds.
    unfold STDOUT_FILENO, STDERR_FILENO, dup2 at 1. rewrite Hout.
    rewrite dup2_retry_dup2. unfold dup2.
    rewrite lookup_insert_ne by congruence. rewrite Hw. apply Himage. }
  rewrite Heq. unfold close. split.
  - rewrite !lookup_delete_ne by congruence. by rewrite lookup_insert_eq.
  - rewrite !lookup_delete_ne by congruence.
    rewrite lookup_insert_ne by congruence. by rewrite lookup_insert_eq.
Qed.

(** C7: the child of an [update] call, forked by a daemon that has its
    three standard descriptors open, executes [swupd update] with its
    standard output on the write end of the pipe and its standard error on
    what was the standard output of the daemon: [dup2(STDOUT_FILENO,
    STDERR_FILENO)] runs before the standard output is redirected. *)
Theorem child_standard_error_not_on_pipe :
  exists image,
    method_update [ArgOptions []] sample_env_child (main_state 7) = InChild image
    /\ child_end_of image = Exec "swupd" ["swupd"; "update"]
    /\ child_fds image !! STDOUT_FILENO = Some PipeWriteEnd
    /\ child_fds image !! STDERR_FILENO = Some (DaemonFile 1)
    /\ sample_fdtable !! STDOUT_FILENO = Some (DaemonFile 1).
Proof. eexists. repeat split; vm_compute; reflexivity. Qed.

(** *** The idle timer *)

Lemma run_timeout_value (exiting : bool) :
  run_timeout exiting = if exiting then UINT64_MAX else 30000000.
Proof. by destruct exiting. Qed.

(** The calls of one iteration, by the way it ends. *)
Lemma loop_body_waits (exiting : bool) (context : daemon_state_t) (env : loop_env) :
  wait_timeouts (snd (loop_body exiting context env)) = []
  \/ wait_timeouts (snd (loop_body exiting context env)) = [run_timeout exiting].
Proof.
  unfold loop_body.
  destruct (get_state_r env <? 0); [by left |].
  destruct (get_state_r env =? SD_EVENT_FINISHED); [by left |].
  destruct (sd_event_run_r (run env) <? 0); [by right |].
  destruct (after_run (run env) context) as [r c t | t | img]; [| by right | by right].
  destruct (_ && _ && _); [| by right].
  destruct (try_close_r env =? - EBUSY); [by right |].
  destruct (try_close_r env =? - EOPNOTSUPP).
  - destruct (get_unique_name_r env <? 0); [by right |].
    destruct (asprintf_r env <? 0); [by right |].
    destruct (add_match_r env <? 0); [by right |].
    destruct (release_name_r env <? 0); by right.
  - destruct (try_close_r env <? 0); by right.
Qed.

Lemma loop_body_close_attempt (exiting : bool) (context : daemon_state_t)
  (env : loop_env) :
  close_attempts (snd (loop_body exiting context env)) <> [] ->
  exiting = false /\ run env = RunTimeout /\ method context = METHOD_NOTSET.
Proof.
  unfold loop_body.
  destruct (get_state_r env <? 0); [done |].
  destruct (get_state_r env =? SD_EVENT_FINISHED); [done |].
  destruct (run env) as [e | | ev] eqn:Hrun; cbn [sd_event_run_r after_run].
  - done.
  - change (0 <? 0) with false. change (0 =? 0) with true. cbv iota.
    rewrite andb_true_r.
    destruct (method_value (method context) =? 0) eqn:HM; [| done].
    destruct exiting; [done |]. intros _.
    destruct (method context); try discriminate. done.
  - change (1 <? 0) with false. change (1 =? 0) with false. cbv iota.
    destruct (dispatch ev context) as [r c t | t | img]; [| done | done].
    by rewrite andb_false_r.
Qed.

Lemma loop_body_continue (exiting : bool) (context : daemon_state_t)
  (env : loop_env) (e : bool) (c : daemon_state_t) :
  fst (loop_body exiting context env) = LoopContinue e c ->
  method c <> METHOD_NOTSET ->
  e = exiting /\ close_attempts (snd (loop_body exiting context env)) = [].
Proof.
  unfold loop_body.
  destruct (get_state_r env <? 0); [done |].
  destruct (get_state_r env =? SD_EVENT_FINISHED); [done |].
  destruct (sd_event_run_r (run env) <? 0); [done |].
  destruct (after_run (run env) context) as [r c' t | t | img]; [| done | done].
  destruct (method_value (method c') =? 0) eqn:HM.
  - destruct (_ && _ && _).
    + destruct (try_close_r env =? - EBUSY);
        [cbn [fst]; intros [= <- <-] Hc; destruct (method c'); done |].
      destruct (try_close_r env =? - EOPNOTSUPP).
      * destruct (get_unique_name_r env <? 0); [done |].
        destruct (asprintf_r env <? 0); [done |].
        destruct (add_match_r env <? 0); [done |].
        destruct (release_name_r env <? 0); [done |].
        cbn [fst]; intros [= <- <-] Hc; destruct (method c'); done.
      * destruct (try_close_r env <? 0); done.
    + cbn [fst]; intros [= <- <-] Hc; destruct (method c'); done.
  - cbn [andb fst snd]. by intros [= <- <-] _.
Qed.

(** C8 as the spec words it does not hold: with an update in flight and
    the daemon not releasing its name, the wait of the iteration has the
    timeout of 30 seconds, not the infinite one. *)
Lemma wait_is_finite_while_request_in_flight :
  method sample_busy_state <> METHOD_NOTSET
  /\ loop_body false sample_busy_state sample_loop_env
     = (LoopContinue false sample_busy_state, [EventRun 30000000; Handled []])
  /\ 30000000 <> UINT64_MAX.
Proof. repeat split; [discriminate | discriminate]. Qed.

(** C8, amended: the wait of an iteration has the infinite timeout when the
    daemon is releasing its name and the timeout of 30 seconds otherwise,
    request in flight or not.  A close of the bus is attempted only in an
    iteration whose wait timed out with no operation in flight and the
    daemon not releasing its name.  An iteration that ends with an operation
    in flight has attempted no close and leads to a next iteration, whose
    wait, if it makes one, has the full timeout again. *)
Theorem idle_close_only_without_request (exiting : bool)
  (context : daemon_state_t) (env : loop_env)
  (step : loop_step) (tr : list loop_action) :
  loop_body exiting context env = (step, tr) ->
  (forall t, In t (wait_timeouts tr) ->
             t = if exiting then UINT64_MAX else 30000000)
  /\ (close_attempts tr <> [] ->
      exiting = false /\ run env = RunTimeout /\ method context = METHOD_NOTSET)
  /\ (forall e c,
        step = LoopContinue e c -> method c <> METHOD_NOTSET ->
        e = exiting /\ close_attempts tr = []
        /\ forall env' t,
             In t (wait_timeouts (snd (loop_body e c env'))) ->
             t = if exiting then UINT64_MAX else 30000000).
Proof.
  intros Hbody.
  assert (Hwait : forall x c' env' t,
            In t (wait_timeouts (snd (loop_body x c' env'))) ->
            t = if x then UINT64_MAX else 30000000).
  { intros x c' env' t Hin. rewrite <- run_timeout_value.
    destruct (loop_body_waits x c' env') as [Hw | Hw]; rewrite Hw in Hin;
      cbn [In] in Hin; [contradiction | by destruct Hin]. }
  split; [| split].
  - intros t Hin. apply (Hwait exiting context env). by rewrite Hbody.
  - intros Hclose. apply (loop_body_close_attempt exiting context env).
    by rewrite Hbody.
  - intros e c -> Hc.
    destruct (loop_body_continue exiting context env e c) as [-> Hno];
      [by rewrite Hbody | assumption |].
    rewrite Hbody in Hno. split; [reflexivity | split; [assumption |]].
    intros env' t. apply Hwait.
Qed.

Lemma idle_close_only_without_request_witness :
  loop_body false (main_state 7) sample_loop_env
  = (LoopBreak (main_state 7),
     [EventRun 30000000; Handled []; TryClose 0; EventExit 0])
  /\ run sample_loop_env = RunTimeout
  /\ method (main_state 7) = METHOD_NOTSET.
Proof.
  split; [reflexivity |].
  exact (proj2 (proj1 (proj2 (idle_close_only_without_request false (main_state 7)
                                sample_loop_env (LoopBreak (main_state 7))
                                [EventRun 30000000; Handled []; TryClose 0; EventExit 0]
                                ltac:(reflexivity)))
                      ltac:(discriminate))).
Defined.

(** *** End-to-end scenarios of the spec (section 8) *)

Example update_scenario_argv :
  argv_of (method_update [ArgOptions [("url", VString "http://example")]]
             sample_env_child (main_state 7))
  = Some ["swupd"; "update"; "--url"; "http://example"].
Proof. reflexivity. Qed.

Example update_scenario_lifecycle :
  run_events
    [BusCall "update" [ArgOptions [("url", VString "http://example")]] sample_env_parent;
     ChildOutput 3 12 "Checking..." 5%positive 1;
     ChildOutput 3 5 "Done" 5%positive 1;
     ChildExit (mk_siginfo CLD_EXITED 0 4242) 4242 1;
     ChildOutput 3 0 EmptyString 5%positive 1]
    (main_state 7)
  = Some (main_state 7)
  /\ dispatch (ChildExit (mk_siginfo CLD_EXITED 0 4242) 4242 1) sample_busy_state
     = Returned EXIT_SUCCESS (main_state 7)
         [ActWaitpid 4242 4242; ActStoreChild 0; ActStoreMethod METHOD_NOTSET;
          ActEmitSignal "requestCompleted" [SigString (Some "update"); SigInt 0] 1].
Proof. split; reflexivity. Qed.

Example idle_shutdown_scenario :
  run_bus_event_loop
    [mk_loop_env SD_EVENT_INITIAL RunTimeout (- EBUSY) 1 1 1 1;
     mk_loop_env SD_EVENT_INITIAL RunTimeout (- EOPNOTSUPP) 1 1 1 1;
     mk_loop_env SD_EVENT_INITIAL (RunDispatched NameOwnerChanged) 0 1 1 1 1;
     mk_loop_env SD_EVENT_FINISHED RunTimeout 0 1 1 1 1]
    (main_state 7) 0 0
  = Some (0,
          [EventRun 30000000; Handled []; TryClose (- EBUSY);
           EventRun 30000000; Handled []; TryClose (- EOPNOTSUPP);
           NotifyStopping; AddMatch 1; ReleaseName 1;
           EventRun UINT64_MAX; Handled [ActBusClose; ActEventExit 0]]).
Proof. reflexivity. Qed.

(** * Further properties of the code *)

(** ** Allow-lists and the reading of options *)

Lemma is_in_array_loop_spec (key : string) (a : list string) :
  (In key a -> is_in_array_loop key a = 1)
  /\ (~ In key a -> is_in_array_loop key a = 0).
Proof.
  induction a as [| t a [IHin IHout]]; cbn [is_in_array_loop In].
  - split; [contradiction | reflexivity].
  - destruct (String.eqb_spec key t) as [-> | Hne].
    + split; [reflexivity | intros H; contradict H; by left].
    + split.
      * intros [Heq | Hin]; [congruence | by apply IHin].
      * intros Hout. apply IHout. tauto.
Qed.

(** X1: [is_in_array] answers 1 exactly when the array pointer is not
    [NULL] and the key is one of its elements, and 0 otherwise: for the
    [NULL] array, the empty array and a key that is not listed. *)
Theorem is_in_array_membership (key : string) (arr : option (list string)) :
  (is_in_array key arr = 1 <-> exists a, arr = Some a /\ In key a)
  /\ (is_in_array key arr = 0 <-> forall a, arr = Some a -> ~ In key a)
  /\ (is_in_array key arr = 0 \/ is_in_array key arr = 1).
Proof.
  destruct arr as [a |]; cbn [is_in_array].
  - destruct (is_in_array_loop_spec key a) as [Hin Hout].
    destruct (in_dec string_dec key a) as [H | H].
    + rewrite (Hin H). split; [| split].
      * split; [intros _; eauto | reflexivity].
      * split; [discriminate | intros Hall; destruct (Hall a eq_refl H)].
      * by right.
    + rewrite (Hout H). split; [| split].
      * split; [discriminate | intros (a' & [= <-] & H'); contradiction].
      * split; [intros _ a' [= <-]; assumption | reflexivity].
      * by left.
  - split; [| split].
    + split; [discriminate | intros (a & Ha & _); discriminate].
    + split; [intros _ a Ha; discriminate | reflexivity].
    + by left.
Qed.





(** ** What the operation handlers do with a call *)

Lemma run_swupd_succeeds (M : method_t) (args : list string) (env : os_env)
  (context : daemon_state_t) :
  spawn_succeeds env ->
  run_swupd M args env context
  = Returned 0 (mk_daemon_state (bus context) (fork_pid env) M) (spawn_trace M env).
Proof.
  intros (Hp & Hf & Ha). unfold run_swupd, spawn_trace.
  destruct (Z.ltb_spec (pipe2_r env) 0); [lia |].
  destruct (fds env) as [fd0 fd1]. cbn [fst snd].
  destruct (Z.eqb_spec (fork_pid env) 0); [lia |].
  destruct (Z.ltb_spec (fork_pid env) 0); [lia |].
  destruct (Z.ltb_spec (add_io_r env) 0); [lia | reflexivity].
Qed.

Lemma run_swupd_in_child (M : method_t) (file : string) (args : list string)
  (env : os_env) (context : daemon_state_t) :
  0 <= pipe2_r env -> fork_pid env = 0 ->
  exists image,
    run_swupd M (file :: args) env context = InChild image
    /\ child_end_of image
       = if execvp_fails env then Exit 1 else Exec file (file :: args).
Proof.
  intros Hp Hf. unfold run_swupd.
  destruct (Z.ltb_spec (pipe2_r env) 0); [lia |].
  destruct (fds env) as [fd0 fd1] eqn:Hfds. rewrite Hf. cbn [Z.eqb].
  eexists. split; [reflexivity |].
  unfold run_swupd_child. rewrite Hfds.
  destruct (dup2 STDOUT_FILENO STDERR_FILENO _) as [r1 t1].
  destruct (dup2_retry _ _ _ _) as [r2 t2].
  unfold list_to_strv. by destruct (execvp_fails env).
Qed.

(** The five handlers follow one template: from an idle state, a body that
    is not readable is answered at once with false, and a readable one
    leads to [run_swupd] with the argument vector of the spec. *)
Lemma handler_normal_form (M : method_t) (h : handler) :
  handler_of M = Some h ->
  forall (m : sd_bus_message) (env : os_env) (context : daemon_state_t),
    child context = 0 ->
    h m env context
    = if body_readable M m then
        finish_run (run_swupd M (spec_argv M m) env context) env
      else Returned (reply_r env) context [ActReply false].
Proof.
  intros Hh m env context Hc.
  destruct M; cbn [handler_of] in Hh; inversion Hh; subst h; clear Hh;
    unfold method_check_update, method_update, method_verify,
           method_bundle_add, method_bundle_remove;
    rewrite Hc; cbn [Z.eqb negb];
    (destruct m as [| [entries | s | l | b] rest]; [reflexivity | | reflexivity ..]);
    unfold body_readable, spec_argv;
    cbn [accepted_str_opts_of accepted_bool_opts_of body_options];
    (match goal with
     | |- context [forallb ?f entries] => destruct (forallb f entries) eqn:Hok
     end;
     [ rewrite read_options_readable by exact Hok
     | match goal with
       | |- context [bus_message_read_options ?sl (ArgOptions entries :: rest) ?os ?ob] =>
           destruct (read_options_unreadable os ob sl entries rest Hok) as [l' ->]
       end; reflexivity ]);
    cbn [andb]; change (0 <? 0) with false; cbv iota;
    unfold list_append_data, SWUPD_CLIENT;
    cbn [app strdup_entry _method_opt_map default body_positionals].
  - (* checkUpdate *)
    destruct rest as [| [e | bundle | l | b] rest']; reflexivity.
  - (* update *)
    by rewrite app_nil_r.
  - (* verify *)
    by rewrite app_nil_r.
  - (* bundleAdd *)
    destruct rest as [| [e | s | bundles | b] rest']; try reflexivity.
    cbn [sd_bus_message_enter_array_s]. change (1 <? 0) with false. cbv iota.
    rewrite read_bundles_loop_appends. reflexivity.
  - (* bundleRemove *)
    destruct rest as [| [e | bundle | l | b] rest']; reflexivity.
Qed.

Lemma finish_run_returned (r : Z) (context : daemon_state_t)
  (trace : list action) (env : os_env) :
  finish_run (Returned r context trace) env
  = Returned (reply_r env) context (trace ++ [ActReply (0 <=? r)]).
Proof. reflexivity. Qed.

Lemma handler_accepts (M : method_t) (h : handler)
  (m : sd_bus_message) (env : os_env) (context : daemon_state_t) :
  handler_of M = Some h ->
  child context = 0 ->
  body_readable M m = true ->
  spawn_succeeds env ->
  h m env context
  = Returned (reply_r env)
      (mk_daemon_state (bus context) (fork_pid env) M)
      (spawn_trace M env ++ [ActReply true]).
Proof.
  intros Hh Hc Hok Hspawn.
  rewrite (handler_normal_form M h Hh m env context Hc), Hok.
  by rewrite run_swupd_succeeds.
Qed.

(** X3: a call whose body the handler cannot read (no options array, an
    ill-typed allowed option, a missing or wrongly typed bundle argument)
    reaches no spawn: from an idle state each operation handler makes the
    single action of replying false and leaves the state as it was. *)
Theorem unreadable_request_rejected (M : method_t) (h : handler)
  (m : sd_bus_message) (env : os_env) (context : daemon_state_t) :
  handler_of M = Some h ->
  child context = 0 ->
  body_readable M m = false ->
  h m env context = Returned (reply_r env) context [ActReply false].
Proof.
  intros Hh Hc Hbad. by rewrite (handler_normal_form M h Hh m env context Hc), Hbad.
Qed.

Lemma unreadable_request_rejected_witness :
  method_check_update [ArgOptions [("url", VString "u")]] sample_env_parent (main_state 7)
  = Returned 1 (main_state 7) [ActReply false].
Proof.
  exact (unreadable_request_rejected METHOD_CHECK_UPDATE method_check_update
           [ArgOptions [("url", VString "u")]] sample_env_parent (main_state 7)
           ltac:(reflexivity) ltac:(reflexivity) ltac:(reflexivity)).
Defined.

(** X4: a readable call that arrives in an idle state when [pipe2], [fork]
    and [sd_event_add_io] succeed is accepted: the handler closes the write
    end of the pipe, records the pid of the child and the kind of the
    operation, watches the read end, and replies true. *)
Theorem readable_request_accepted (M : method_t) (h : handler)
  (m : sd_bus_message) (env : os_env) (context : daemon_state_t) :
  handler_of M = Some h ->
  child context = 0 ->
  body_readable M m = true ->
  spawn_succeeds env ->
  h m env context
  = Returned (reply_r env)
      (mk_daemon_state (bus context) (fork_pid env) M)
      (spawn_trace M env ++ [ActReply true]).
Proof.
  intros Hh Hc Hok Hspawn. by apply handler_accepts.
Qed.

Lemma readable_request_accepted_witness :
  method_bundle_remove [ArgOptions []; ArgString "editors"] sample_env_parent (main_state 7)
  = Returned 1 (mk_daemon_state 7 4242 METHOD_BUNDLE_REMOVE)
      [ActPipe2 0; ActFork 4242; ActClose 4; ActStoreChild 4242;
       ActStoreMethod METHOD_BUNDLE_REMOVE; ActAddIo 3 1; ActReply true].
Proof.
  exact (readable_request_accepted METHOD_BUNDLE_REMOVE method_bundle_remove
           [ArgOptions []; ArgString "editors"] sample_env_parent (main_state 7)
           ltac:(reflexivity) ltac:(reflexivity) ltac:(reflexivity)
           ltac:(vm_compute; repeat split; discriminate)).
Defined.

(** X5: the argument vector the child of a readable call executes is the
    program name, the sub-command of the operation, the tokens of the
    allowed options in the order the caller supplied them, then the
    positional arguments the handler reads: one bundle name for
    [checkUpdate] and [bundleRemove], the bundle names in order for
    [bundleAdd], none for [update] and [verify]. *)
Theorem child_argument_vector (M : method_t) (h : handler)
  (m : sd_bus_message) (env : os_env) (context : daemon_state_t) :
  handler_of M = Some h ->
  child context = 0 ->
  body_readable M m = true ->
  0 <= pipe2_r env -> fork_pid env = 0 -> execvp_fails env = false ->
  argv_of (h m env context)
  = Some ([SWUPD_CLIENT; strdup_entry (_method_opt_map M)]
          ++ flat_map (spec_option_tokens (accepted_str_opts_of M)
                                          (accepted_bool_opts_of M))
                      (body_options m)
          ++ body_positionals M m).
Proof.
  intros Hh Hc Hok Hp Hf Hx.
  rewrite (handler_normal_form M h Hh m env context Hc), Hok.
  fold (spec_argv M m). unfold spec_argv at 1. cbn [app].
  destruct (run_swupd_in_child M SWUPD_CLIENT
              (strdup_entry (_method_opt_map M)
               :: flat_map (spec_option_tokens (accepted_str_opts_of M)
                                               (accepted_bool_opts_of M))
                           (body_options m) ++ body_positionals M m)
              env context Hp Hf) as (image & -> & Hend).
  cbn [finish_run argv_of]. by rewrite Hend, Hx.
Qed.

Lemma child_argument_vector_witness :
  argv_of (method_check_update
             [ArgOptions [("log", VString "x"); ("url", VString "http://example")];
              ArgString "os-core"]
             sample_env_child (main_state 7))
  = Some ["swupd"; "check-update"; "--url"; "http://example"; "os-core"].
Proof.
  exact (child_argument_vector METHOD_CHECK_UPDATE method_check_update
           [ArgOptions [("log", VString "x"); ("url", VString "http://example")];
            ArgString "os-core"]
           sample_env_child (main_state 7)
           ltac:(reflexivity) ltac:(reflexivity) ltac:(reflexivity)
           ltac:(vm_compute; discriminate) ltac:(reflexivity) ltac:(reflexivity)).
Defined.

(** X6: whatever the caller sends, the forked child of an operation
    handler never comes back to the handler (no reply is sent from it) and
    never executes anything but [swupd] with the sub-command of the
    operation as first argument; when [execvp] fails it ends with
    [_exit(1)].  A handler is in a child only when it was called in an
    idle state, [pipe2] succeeded and [fork] answered 0. *)
Theorem child_only_executes_swupd (M : method_t) (h : handler)
  (m : sd_bus_message) (env : os_env) (context : daemon_state_t)
  (image : child_image) :
  handler_of M = Some h ->
  h m env context = InChild image ->
  child context = 0 /\ 0 <= pipe2_r env /\ fork_pid env = 0
  /\ exists sub rest,
       _method_opt_map M = Some sub
       /\ child_end_of image
          = if execvp_fails env then Exit 1
            else Exec "swupd" ("swupd" :: sub :: rest).
Proof.
  intros Hh Hin.
  destruct (Z.eq_dec (child context) 0) as [Hc | Hc];
    [| by rewrite (handler_busy M h Hh m env context Hc) in Hin].
  rewrite (handler_normal_form M h Hh m env context Hc) in Hin.
  destruct (body_readable M m); [| discriminate].
  assert (Hsub : exists sub, _method_opt_map M = Some sub)
    by (destruct M; cbn in Hh; try discriminate; cbn; eauto).
  destruct Hsub as [sub Hsub].
  unfold spec_argv in Hin. rewrite Hsub in Hin. cbn [app strdup_entry default] in Hin.
  destruct (Z.ltb_spec (pipe2_r env) 0) as [Hp | Hp].
  { unfold run_swupd in Hin.
    destruct (Z.ltb_spec (pipe2_r env) 0); [discriminate | lia]. }
  destruct (Z.eq_dec (fork_pid env) 0) as [Hf | Hf].
  - destruct (run_swupd_in_child M SWUPD_CLIENT
                (sub :: flat_map (spec_option_tokens (accepted_str_opts_of M)
                                                     (accepted_bool_opts_of M))
                                 (body_options m) ++ body_positionals M m)
                env context Hp Hf) as (image' & Hrun & Hend).
    unfold id in Hin. rewrite Hrun in Hin. cbn [finish_run] in Hin.
    injection Hin as <-.
    split; [assumption | split; [assumption | split; [assumption |]]].
    exists sub. eexists. split; [exact Hsub | exact Hend].
  - unfold run_swupd in Hin.
    destruct (Z.ltb_spec (pipe2_r env) 0); [lia |].
    destruct (fds env) as [fd0 fd1].
    destruct (Z.eqb_spec (fork_pid env) 0); [contradiction |].
    destruct (fork_pid env <? 0); [discriminate |].
    destruct (add_io_r env <? 0); discriminate.
Qed.

Lemma child_only_executes_swupd_witness :
  child (main_state 7) = 0 /\ 0 <= pipe2_r sample_env_child
  /\ fork_pid sample_env_child = 0
  /\ exists sub rest,
       _method_opt_map METHOD_VERIFY = Some sub
       /\ child_end_of
            (mk_child_image
               (<[1 := PipeWriteEnd]> (<[2 := DaemonFile 1]> (<[0 := DaemonFile 0]> ∅)))
               (Exec "swupd" ["swupd"; "verify"; "--fix"]))
          = if execvp_fails sample_env_child then Exit 1
            else Exec "swupd" ("swupd" :: sub :: rest).
Proof.
  exact (child_only_executes_swupd METHOD_VERIFY method_verify
           [ArgOptions [("fix", VBool true)]] sample_env_child (main_state 7) _
           ltac:(reflexivity) ltac:(vm_compute; reflexivity)).
Defined.

(** X7: [method_bundle_add] does not ask for a bundle name: with an empty
    array of bundle names and well-typed options it hands [run_swupd] the
    vector [swupd bundle-add] followed by the option tokens alone, and the
    call is accepted when the spawn succeeds. *)
Theorem bundle_add_accepts_no_bundle (entries : list (string * variant))
  (env : os_env) (context : daemon_state_t) :
  child context = 0 ->
  forallb (option_readable (Some ["url"]) (Some ["list"])) entries = true ->
  method_bundle_add [ArgOptions entries; ArgStrv []] env context
  = finish_run
      (run_swupd METHOD_BUNDLE_ADD
         ("swupd" :: "bundle-add"
          :: flat_map (spec_option_tokens (Some ["url"]) (Some ["list"])) entries)
         env context) env
  /\ (spawn_succeeds env ->
      method_bundle_add [ArgOptions entries; ArgStrv []] env context
      = Returned (reply_r env)
          (mk_daemon_state (bus context) (fork_pid env) METHOD_BUNDLE_ADD)
          (spawn_trace METHOD_BUNDLE_ADD env ++ [ActReply true])).
Proof.
  intros Hc Hok.
  assert (Hform : method_bundle_add [ArgOptions entries; ArgStrv []] env context
                  = finish_run
                      (run_swupd METHOD_BUNDLE_ADD
                         ("swupd" :: "bundle-add"
                          :: flat_map (spec_option_tokens (Some ["url"]) (Some ["list"]))
                                      entries)
                         env context) env).
  { rewrite (handler_normal_form METHOD_BUNDLE_ADD method_bundle_add eq_refl _ env context Hc).
    unfold body_readable, spec_argv.
    cbn [accepted_str_opts_of accepted_bool_opts_of body_options body_positionals].
    rewrite Hok. cbn [andb]. by rewrite app_nil_r. }
  split; [exact Hform |].
  intros Hspawn. rewrite Hform. by rewrite run_swupd_succeeds.
Qed.

Lemma bundle_add_accepts_no_bundle_witness :
  method_bundle_add [ArgOptions [("list", VBool true)]; ArgStrv []]
    sample_env_parent (main_state 7)
  = Returned 1 (mk_daemon_state 7 4242 METHOD_BUNDLE_ADD)
      (spawn_trace METHOD_BUNDLE_ADD sample_env_parent ++ [ActReply true]).
Proof.
  exact (proj2 (bundle_add_accepts_no_bundle [("list", VBool true)]
                  sample_env_parent (main_state 7)
                  ltac:(reflexivity) ltac:(reflexivity))
               ltac:(vm_compute; repeat split; discriminate)).
Defined.

(** ** What the events of the loop do to the daemon *)

Lemma run_swupd_trace (M : method_t) (args : list string) (env : os_env)
  (context context' : daemon_state_t) (r : Z) (trace : list action) :
  run_swupd M args env context = Returned r context' trace ->
  kills trace = [] /\ emitted trace = [] /\ bus context' = bus context.
Proof.
  unfold run_swupd.
  destruct (pipe2_r env <? 0); [by intros [= <- <- <-] |].
  destruct (fds env) as [fd0 fd1].
  destruct (fork_pid env =? 0); [discriminate |].
  destruct (fork_pid env <? 0); [by intros [= <- <- <-] |].
  destruct (add_io_r env <? 0); [discriminate |].
  by intros [= <- <- <-].
Qed.

Lemma kills_reply (trace : list action) (accepted : bool) :
  kills (trace ++ [ActReply accepted]) = kills trace.
Proof. unfold kills. rewrite flat_map_app. cbn. by rewrite app_nil_r. Qed.

Lemma spawns_reply (trace : list action) (accepted : bool) :
  spawns (trace ++ [ActReply accepted]) = spawns trace.
Proof. unfold spawns. rewrite existsb_app. cbn. by rewrite !orb_false_r. Qed.

(** What an operation handler that returns has done. *)
Lemma handler_returned (M : method_t) (h : handler) :
  handler_of M = Some h ->
  forall m env context r context' trace,
    h m env context = Returned r context' trace ->
    kills trace = [] /\ bus context' = bus context
    /\ (spawns trace = true -> child context = 0)
    /\ (context' = context
        \/ (0 < child context' /\ method context' = M)).
Proof.
  intros Hh m env context r context' trace Hret.
  destruct (handler_cases M h Hh m env context) as [(e & He & Heq) | (Hc & args & Heq)];
    rewrite Heq in Hret.
  - unfold finish in Hret. inversion Hret; subst.
    split; [reflexivity |]. split; [reflexivity |].
    split; [discriminate | by left].
  - destruct (run_swupd M args env context) as [r0 c0 t0 | t0 | img] eqn:Hrun;
      cbn [finish_run] in Hret; try discriminate.
    unfold finish in Hret. inversion Hret; subst; clear Hret.
    destruct (run_swupd_trace _ _ _ _ _ _ _ Hrun) as (Hk & _ & Hb).
    rewrite kills_reply. split; [assumption |]. split; [assumption |].
    split; [by intros _ |].
    apply run_swupd_returned in Hrun as [(_ & -> & _) | (_ & Hpid & -> & _)];
      [by left | right; by split].
Qed.

Lemma dispatch_bus_call (member : string) (m : sd_bus_message) (env : os_env)
  (context : daemon_state_t) :
  dispatch (BusCall member m env) context = Returned 1 context []
  \/ dispatch (BusCall member m env) context = method_cancel m env context
  \/ exists M h, handler_of M = Some h
                 /\ dispatch (BusCall member m env) context = h m env context.
Proof.
  cbn [dispatch]. unfold swupdd_vtable. cbn [vtable_find].
  destruct (String.eqb member "checkUpdate").
  { destruct (String.eqb (signature m) _); [| by left].
    right; right. by exists METHOD_CHECK_UPDATE, method_check_update. }
  destruct (String.eqb member "update").
  { destruct (String.eqb (signature m) _); [| by left].
    right; right. by exists METHOD_UPDATE, method_update. }
  destruct (String.eqb member "verify").
  { destruct (String.eqb (signature m) _); [| by left].
    right; right. by exists METHOD_VERIFY, method_verify. }
  destruct (String.eqb member "bundleAdd").
  { destruct (String.eqb (signature m) _); [| by left].
    right; right. by exists METHOD_BUNDLE_ADD, method_bundle_add. }
  destruct (String.eqb member "bundleRemove").
  { destruct (String.eqb (signature m) _); [| by left].
    right; right. by exists METHOD_BUNDLE_REMOVE, method_bundle_remove. }
  destruct (String.eqb member "cancel"); [| by left].
  destruct (String.eqb (signature m) _); [right; by left | by left].
Qed.

Lemma dispatch_operation_call (member : string) (m : sd_bus_message)
  (env : os_env) (context : daemon_state_t) :
  member <> "cancel" ->
  dispatch (BusCall member m env) context = Returned 1 context []
  \/ exists M h, handler_of M = Some h
                 /\ dispatch (BusCall member m env) context = h m env context.
Proof.
  intros Hm. apply String.eqb_neq in Hm.
  cbn [dispatch]. unfold swupdd_vtable. cbn [vtable_find]. rewrite Hm.
  destruct (String.eqb member "checkUpdate").
  { destruct (String.eqb (signature m) _); [| by left].
    right. by exists METHOD_CHECK_UPDATE, method_check_update. }
  destruct (String.eqb member "update").
  { destruct (String.eqb (signature m) _); [| by left].
    right. by exists METHOD_UPDATE, method_update. }
  destruct (String.eqb member "verify").
  { destruct (String.eqb (signature m) _); [| by left].
    right. by exists METHOD_VERIFY, method_verify. }
  destruct (String.eqb member "bundleAdd").
  { destruct (String.eqb (signature m) _); [| by left].
    right. by exists METHOD_BUNDLE_ADD, method_bundle_add. }
  destruct (String.eqb member "bundleRemove").
  { destruct (String.eqb (signature m) _); [| by left].
    right. by exists METHOD_BUNDLE_REMOVE, method_bundle_remove. }
  by left.
Qed.

Lemma method_cancel_trace (m : sd_bus_message) (env : os_env)
  (context : daemon_state_t) :
  exists trace,
    method_cancel m env context = Returned (reply_r env) context trace
    /\ spawns trace = false
    /\ (kills trace = []
        \/ (child context <> 0
            /\ (kills trace = [(child context, SIGINT)]
                \/ kills trace = [(child context, SIGKILL)]))).
Proof.
  unfold method_cancel, finish.
  destruct (Z.eqb_spec (child context) 0) as [Hc | Hc].
  - eexists. split; [reflexivity |]. split; [reflexivity | by left].
  - destruct (sd_bus_message_read_b m) as [[r force] m'].
    destruct (r <? 0).
    + eexists. split; [reflexivity |]. split; [reflexivity | by left].
    + destruct (negb (force =? 0)); eexists; (split; [reflexivity |]);
        (split; [reflexivity |]); right; split; try assumption; [by right | by left].
Qed.

(** What any event that the daemon survives has done. *)
Lemma dispatch_returned (ev : daemon_event) (context context' : daemon_state_t)
  (r : Z) (trace : list action) :
  dispatch ev context = Returned r context' trace ->
  bus context' = bus context
  /\ (spawns trace = true -> child context = 0)
  /\ (forall pid sig, In (pid, sig) (kills trace) ->
        pid = child context /\ pid <> 0 /\ (sig = SIGINT \/ sig = SIGKILL))
  /\ (context' = context
      \/ (0 < child context' /\ method context' <> METHOD_NOTSET)
      \/ (child context' = 0 /\ method context' = METHOD_NOTSET)).
Proof.
  destruct ev as [member m env | si ws emit_r | fd count buffer e emit_r |].
  - destruct (dispatch_bus_call member m env context)
      as [-> | [-> | (M & h & Hh & ->)]].
    + intros [= <- <- <-]. repeat split; try done. by left.
    + destruct (method_cancel_trace m env context) as (t & -> & Hs & Hk).
      intros [= <- <- <-]. split; [reflexivity |].
      split; [by rewrite Hs |]. split; [| by left].
      intros pid sig Hin.
      destruct Hk as [Hk | (Hc & [Hk | Hk])]; rewrite Hk in Hin; cbn [In] in Hin;
        [contradiction | |];
        (destruct Hin as [[= <- <-] | []]; split; [reflexivity |]; split;
         [assumption | tauto]).
    + intros Hret.
      destruct (handler_returned M h Hh _ _ _ _ _ _ Hret) as (Hk & Hb & Hs & Hc).
      split; [assumption |]. split; [assumption |].
      split; [by rewrite Hk |].
      destruct Hc as [-> | [Hpos HM]]; [by left |].
      right; left. split; [assumption |].
      rewrite HM. intros ->. discriminate.
  - cbn [dispatch]. unfold on_child_exit.
    destruct (method_value (method context) =? 0); [discriminate |].
    destruct (negb (ssi_pid si =? child context)); [discriminate |].
    destruct (ws =? -1); [discriminate |].
    intros [= <- <- <-]. repeat split; try done. by right; right.
  - cbn [dispatch]. unfold on_childs_output.
    destruct (0 <? count); [| destruct (count <? 0)];
      intros [= <- <- <-]; repeat split; try done; by left.
  - cbn [dispatch]. unfold on_name_owner_change.
    intros [= <- <- <-]. repeat split; try done. by left.
Qed.

Lemma run_events_wf (evs : list daemon_event) :
  forall context context' : daemon_state_t,
    state_wf context ->
    run_events evs context = Some context' ->
    state_wf context' /\ bus context' = bus context.
Proof.
  induction evs as [| ev evs IH]; intros context context' Hwf; cbn [run_events].
  - by intros [= <-].
  - destruct (dispatch ev context) as [r c t | t | img] eqn:Hd; try discriminate.
    intros Hrun.
    destruct (dispatch_returned _ _ _ _ _ Hd) as (Hb & _ & _ & Hc).
    destruct (IH c context') as [Hwf' Hb']; [| assumption |].
    + destruct Hc as [-> | [H | H]]; [assumption | by right | by left].
    + split; [assumption | congruence].
Qed.

Lemma main_state_wf (b : Z) : state_wf (main_state b).
Proof. by left. Qed.

(** X8: the bus handle stored by [main] is never replaced: after any
    sequence of events the daemon state holds the handle it started with,
    and the recorded child is never negative (zero when idle, a positive
    pid while an operation is in flight). *)
Theorem bus_handle_kept_and_child_not_negative (b : Z) (evs : list daemon_event)
  (context : daemon_state_t) :
  run_events evs (main_state b) = Some context ->
  bus context = b
  /\ 0 <= child context
  /\ (0 < child context <-> method context <> METHOD_NOTSET).
Proof.
  intros Hrun.
  destruct (run_events_wf evs _ _ (main_state_wf b) Hrun) as [Hwf Hb].
  split; [exact Hb |].
  destruct Hwf as [[Hc HM] | [Hc HM]]; rewrite ?Hc, ?HM; split; try lia;
    split; try done; lia.
Qed.

Lemma bus_handle_kept_and_child_not_negative_witness :
  bus sample_busy_state = 7
  /\ 0 <= child sample_busy_state
  /\ (0 < child sample_busy_state <-> method sample_busy_state <> METHOD_NOTSET).
Proof.
  exact (bus_handle_kept_and_child_not_negative 7
           [BusCall "verify" [ArgOptions []] sample_env_fork_fails;
            BusCall "update" [ArgOptions []] sample_env_parent;
            BusCall "cancel" [ArgBool true] sample_env_parent]
           sample_busy_state ltac:(reflexivity)).
Defined.

(** X9: the daemon signals nothing but its recorded child.  In a state it
    can reach, whatever event it handles, every [kill] it makes has the
    recorded pid as target, that pid is positive (never 0 or negative,
    which would address a process group), the signal is [SIGINT] or
    [SIGKILL], and the event is a call of the member [cancel]. *)
Theorem only_recorded_child_is_signalled (b : Z) (evs : list daemon_event)
  (context context' : daemon_state_t) (ev : daemon_event)
  (r : Z) (trace : list action) (pid sig : Z) :
  run_events evs (main_state b) = Some context ->
  dispatch ev context = Returned r context' trace ->
  In (pid, sig) (kills trace) ->
  pid = child context /\ 0 < pid /\ (sig = SIGINT \/ sig = SIGKILL)
  /\ exists m env, ev = BusCall "cancel" m env.
Proof.
  intros Hrun Hd Hin.
  destruct (run_events_wf evs _ _ (main_state_wf b) Hrun) as [Hwf _].
  destruct (dispatch_returned _ _ _ _ _ Hd) as (_ & _ & Hk & _).
  destruct (Hk pid sig Hin) as (-> & Hne & Hsig).
  split; [reflexivity |].
  split; [destruct Hwf as [[Hc _] | [Hc _]]; [contradiction | assumption] |].
  split; [assumption |].
  destruct ev as [member m env | si ws emit_r | fd count buffer e emit_r |].
  - destruct (String.eqb_spec member "cancel") as [-> | Hm]; [by eauto |].
    exfalso.
    destruct (dispatch_operation_call member m env context Hm)
      as [Heq | (M & h & Hh & Heq)]; rewrite Heq in Hd.
    + injection Hd as <- <- <-. by destruct Hin.
    + destruct (handler_returned M h Hh _ _ _ _ _ _ Hd) as [Hno _].
      rewrite Hno in Hin. by destruct Hin.
  - exfalso. revert Hd. cbn [dispatch]. unfold on_child_exit.
    destruct (method_value (method context) =? 0); [discriminate |].
    destruct (negb (ssi_pid si =? child context)); [discriminate |].
    destruct (ws =? -1); [discriminate |].
    intros [= <- <- <-]. by destruct Hin.
  - exfalso. revert Hd. cbn [dispatch]. unfold on_childs_output.
    destruct (0 <? count); [| destruct (count <? 0)];
      intros [= <- <- <-]; by destruct Hin.
  - exfalso. revert Hd. cbn [dispatch]. unfold on_name_owner_change.
    intros [= <- <- <-]. by destruct Hin.
Qed.

Lemma only_recorded_child_is_signalled_witness :
  4242 = child sample_busy_state /\ 0 < 4242
  /\ (SIGINT = SIGINT \/ SIGINT = SIGKILL)
  /\ exists m env, BusCall "cancel" [ArgBool false] sample_env_parent
                   = BusCall "cancel" m env.
Proof.
  exact (only_recorded_child_is_signalled 7
           [BusCall "update" [ArgOptions []] sample_env_parent]
           sample_busy_state sample_busy_state
           (BusCall "cancel" [ArgBool false] sample_env_parent)
           1 [ActKill 4242 SIGINT; ActReply true] 4242 SIGINT
           ltac:(reflexivity) ltac:(reflexivity) ltac:(by left)).
Defined.

(** X10: no second process.  In a state the daemon can reach, an event
    whose handling calls [pipe2] or [fork] is a call of one of the five
    operations that found the daemon idle (no child, no kind); neither
    [cancel], nor a child exit, nor child output, nor the release of the
    name ever starts a process. *)
Theorem process_started_only_when_idle (b : Z) (evs : list daemon_event)
  (context context' : daemon_state_t) (ev : daemon_event)
  (r : Z) (trace : list action) :
  run_events evs (main_state b) = Some context ->
  dispatch ev context = Returned r context' trace ->
  spawns trace = true ->
  child context = 0 /\ method context = METHOD_NOTSET
  /\ exists member m env, ev = BusCall member m env /\ member <> "cancel".
Proof.
  intros Hrun Hd Hs.
  destruct (run_events_wf evs _ _ (main_state_wf b) Hrun) as [Hwf _].
  destruct (dispatch_returned _ _ _ _ _ Hd) as (_ & Hidle & _ & _).
  specialize (Hidle Hs).
  split; [assumption |].
  split; [destruct Hwf as [[_ HM] | [Hc _]]; [assumption | lia] |].
  destruct ev as [member m env | si ws emit_r | fd count buffer e emit_r |].
  - exists member, m, env. split; [reflexivity |]. intros ->.
    change (dispatch (BusCall "cancel" m env) context)
      with (if String.eqb (signature m) "b" then method_cancel m env context
            else Returned 1 context []) in Hd.
    destruct (method_cancel_trace m env context) as (t & Heq & Hno & _).
    destruct (String.eqb (signature m) "b").
    + rewrite Heq in Hd. injection Hd as <- <- <-. congruence.
    + injection Hd as <- <- <-. discriminate.
  - exfalso. revert Hd. cbn [dispatch]. unfold on_child_exit.
    destruct (method_value (method context) =? 0); [discriminate |].
    destruct (negb (ssi_pid si =? child context)); [discriminate |].
    destruct (ws =? -1); [discriminate |].
    intros [= <- <- <-]. discriminate.
  - exfalso. revert Hd. cbn [dispatch]. unfold on_childs_output.
    destruct (0 <? count); [| destruct (count <? 0)];
      intros [= <- <- <-]; discriminate.
  - exfalso. revert Hd. cbn [dispatch]. unfold on_name_owner_change.
    intros [= <- <- <-]. discriminate.
Qed.

Lemma process_started_only_when_idle_witness :
  child (main_state 7) = 0 /\ method (main_state 7) = METHOD_NOTSET
  /\ exists member m env,
       BusCall "update" [ArgOptions []] sample_env_parent = BusCall member m env
       /\ member <> "cancel".
Proof.
  exact (process_started_only_when_idle 7 [] (main_state 7) sample_busy_state
           (BusCall "update" [ArgOptions []] sample_env_parent) 1
           (spawn_trace METHOD_UPDATE sample_env_parent ++ [ActReply true])
           ltac:(reflexivity) ltac:(reflexivity) ltac:(reflexivity)).
Defined.

(** X11: the life of a request.  A readable call of the vtable member
    named after an operation, accepted in an idle state, followed by the
    exit of the child it started, brings the daemon back to exactly the
    state before the call; the one [requestCompleted] emission carries as
    label the name of the member that was called. *)
Theorem request_round_trip (M : method_t) (label : string)
  (m : sd_bus_message) (env : os_env) (si : signalfd_siginfo)
  (ws emit_r : Z) (context : daemon_state_t) :
  _method_str_map M = Some label ->
  child context = 0 -> method context = METHOD_NOTSET ->
  body_readable M m = true ->
  spawn_succeeds env ->
  ssi_pid si = fork_pid env -> ws <> -1 ->
  exists sig h r1 busy t1 r2 t2,
    vtable_find label swupdd_vtable = Some (sig, h)
    /\ h m env context = Returned r1 busy t1
    /\ child busy = fork_pid env /\ method busy = M
    /\ on_child_exit si ws emit_r busy = Returned r2 context t2
    /\ emitted t2
       = [("requestCompleted",
           [SigString (Some label);
            SigInt (if ssi_code si =? CLD_EXITED then ssi_status si
                    else to_int (128 + ssi_status si))])].
Proof.
  intros Hlabel Hc HM Hok Hspawn Hpid Hws.
  assert (Hh : exists sig h,
             vtable_find label swupdd_vtable = Some (sig, h)
             /\ handler_of M = Some h).
  { destruct M; cbn in Hlabel; inversion Hlabel; subst label;
      eexists _, _; (split; [reflexivity | reflexivity]). }
  destruct Hh as (sig & h & Hfind & Hh).
  assert (Hctx : mk_daemon_state (bus context) 0 METHOD_NOTSET = context)
    by (destruct context as [b c k]; cbn in Hc, HM; by subst).
  exists sig, h, (reply_r env),
         (mk_daemon_state (bus context) (fork_pid env) M),
         (spawn_trace M env ++ [ActReply true]).
  eexists _, _.
  split; [exact Hfind |].
  split; [exact (handler_accepts M h m env context Hh Hc Hok Hspawn) |].
  split; [reflexivity |]. split; [reflexivity |].
  rewrite on_child_exit_returns;
    [| cbn [method]; intros ->; discriminate | exact Hpid | exact Hws].
  cbn [bus method]. rewrite Hlabel, Hctx.
  split; reflexivity.
Qed.

Lemma request_round_trip_witness :
  exists sig h r1 busy t1 r2 t2,
    vtable_find "update" swupdd_vtable = Some (sig, h)
    /\ h [ArgOptions []] sample_env_parent (main_state 7) = Returned r1 busy t1
    /\ child busy = fork_pid sample_env_parent /\ method busy = METHOD_UPDATE
    /\ on_child_exit (mk_siginfo CLD_EXITED 0 4242) 4242 1 busy
       = Returned r2 (main_state 7) t2
    /\ emitted t2 = [("requestCompleted", [SigString (Some "update"); SigInt 0])].
Proof.
  exact (request_round_trip METHOD_UPDATE "update" [ArgOptions []] sample_env_parent
           (mk_siginfo CLD_EXITED 0 4242) 4242 1 (main_state 7)
           ltac:(reflexivity) ltac:(reflexivity) ltac:(reflexivity)
           ltac:(reflexivity) ltac:(vm_compute; repeat split; discriminate)
           ltac:(reflexivity) ltac:(discriminate)).
Defined.

Lemma signature_empty (m : sd_bus_message) :
  signature m = EmptyString -> m = [].
Proof. destruct m as [| [e | s | l | b] m]; [done | discriminate ..]. Qed.

Lemma signature_cons (a : bus_arg) (m : sd_bus_message) :
  signature (a :: m) = arg_signature a +:+ signature m.
Proof. reflexivity. Qed.

(** Inversion of a signature of the vtable: the arguments of the body. *)
Ltac signature_inversion :=
  repeat match goal with
  | H : signature ?m = EmptyString |- _ => apply signature_empty in H; subst m
  | H : signature (?a :: ?m) = _ |- _ =>
      rewrite signature_cons in H;
      destruct a; cbv [arg_signature String.append] in H;
      simplify_eq
  | H : signature ?m = String _ _ |- _ =>
      is_var m; destruct m as [| ? ?]; [discriminate H |]
  end.

(** The vtable signature of an operation gives the body all the handler
    reads, options apart. *)
Lemma vtable_signature_body (M : method_t) (label sig : string) (h : handler)
  (m : sd_bus_message) :
  _method_str_map M = Some label ->
  vtable_find label swupdd_vtable = Some (sig, h) ->
  signature m = sig ->
  handler_of M = Some h
  /\ body_readable M m
     = forallb (option_readable (accepted_str_opts_of M) (accepted_bool_opts_of M))
               (body_options m).
Proof.
  intros Hlabel Hfind Hsig.
  destruct M; cbn in Hlabel; inversion Hlabel; subst label; clear Hlabel;
    cbn in Hfind; injection Hfind as <- <-;
    (split; [reflexivity |]);
    signature_inversion;
    cbn [body_readable body_options]; rewrite ?andb_true_r; reflexivity.
Qed.

(** X12: the signatures of the vtable match what the handlers read.  A
    call that sd-bus hands to the handler of an operation (the body has
    the signature the vtable gives for the member) and that finds the
    daemon idle is refused before the spawn only for an ill-typed allowed
    option: the options array and the positional arguments are always
    there, and the handler goes to [run_swupd] with the argument vector of
    the spec. *)
Theorem dispatched_call_reads_its_body (M : method_t) (label sig : string)
  (h : handler) (m : sd_bus_message) (env : os_env) (context : daemon_state_t) :
  _method_str_map M = Some label ->
  vtable_find label swupdd_vtable = Some (sig, h) ->
  signature m = sig ->
  child context = 0 ->
  dispatch (BusCall label m env) context
  = if forallb (option_readable (accepted_str_opts_of M) (accepted_bool_opts_of M))
               (body_options m)
    then finish_run (run_swupd M (spec_argv M m) env context) env
    else Returned (reply_r env) context [ActReply false].
Proof.
  intros Hlabel Hfind Hsig Hc.
  destruct (vtable_signature_body M label sig h m Hlabel Hfind Hsig) as [Hh Hbody].
  cbn [dispatch]. rewrite Hfind, Hsig, String.eqb_refl.
  by rewrite (handler_normal_form M h Hh m env context Hc), Hbody.
Qed.

Lemma dispatched_call_reads_its_body_witness :
  dispatch (BusCall "bundleAdd" [ArgOptions [("url", VBool true)]; ArgStrv ["a"]]
              sample_env_parent) (main_state 7)
  = Returned 1 (main_state 7) [ActReply false].
Proof.
  exact (dispatched_call_reads_its_body METHOD_BUNDLE_ADD "bundleAdd" "a{sv}as"
           method_bundle_add [ArgOptions [("url", VBool true)]; ArgStrv ["a"]]
           sample_env_parent (main_state 7)
           ltac:(reflexivity) ltac:(reflexivity) ltac:(reflexivity)
           ltac:(reflexivity)).
Defined.

(** ** Child output and child exit *)



(** X15: the status of [requestCompleted] does not tell the two causes
    apart.  For a child in flight, termination by signal N and a normal
    exit with code 128 + N lead to the same emission and the same state. *)
Theorem exit_status_collision (N pid ws emit_r : Z) (context : daemon_state_t) :
  INT_MIN <= N <= INT_MAX - 128 ->
  on_child_exit (mk_siginfo CLD_KILLED N pid) ws emit_r context
  = on_child_exit (mk_siginfo CLD_EXITED (128 + N) pid) ws emit_r context.
Proof.
  intros HN. unfold on_child_exit. cbn [ssi_code ssi_status ssi_pid].
  change (CLD_KILLED =? CLD_EXITED) with false.
  change (CLD_EXITED =? CLD_EXITED) with true. cbv iota.
  by rewrite to_int_small by (unfold INT_MIN, INT_MAX in *; lia).
Qed.

Lemma exit_status_collision_witness :
  on_child_exit (mk_siginfo CLD_KILLED SIGKILL 4242) 4242 1 sample_busy_state
  = on_child_exit (mk_siginfo CLD_EXITED 137 4242) 4242 1 sample_busy_state.
Proof.
  exact (exit_status_collision SIGKILL 4242 4242 1 sample_busy_state
           ltac:(vm_compute; split; discriminate)).
Defined.

(** ** The descriptors of the child *)

Lemma child_fds_of_image (args : list string) (env : os_env) (e : gmap Z file) :
  child_fds (match list_to_strv args with
             | [] => mk_child_image e (Exit 1)
             | file :: _ =>
                 if execvp_fails env then mk_child_image e (Exit 1)
                 else mk_child_image e (Exec file (list_to_strv args))
             end) = e.
Proof.
  destruct (list_to_strv args); [reflexivity |]. by destruct (execvp_fails env).
Qed.

(** X16: what the child inherits.  When the pipe descriptors are distinct
    and neither is the standard output or the standard error, the child
    executes with its standard output on the write end of the pipe, with
    both pipe descriptors closed, and with every other descriptor except
    the standard error (the standard input among them) as the daemon had
    it. *)
Theorem child_descriptor_table (M : method_t) (args : list string)
  (env : os_env) (context : daemon_state_t) (image : child_image)
  (fd0 fd1 : Z) :
  run_swupd M args env context = InChild image ->
  fds env = (fd0, fd1) ->
  fd0 <> fd1 ->
  fd0 <> STDOUT_FILENO -> fd0 <> STDERR_FILENO ->
  fd1 <> STDOUT_FILENO -> fd1 <> STDERR_FILENO ->
  child_fds image !! STDOUT_FILENO = Some PipeWriteEnd
  /\ child_fds image !! fd0 = None
  /\ child_fds image !! fd1 = None
  /\ forall fd,
       fd <> STDOUT_FILENO -> fd <> STDERR_FILENO -> fd <> fd0 -> fd <> fd1 ->
       child_fds image !! fd = fdtable env !! fd.
Proof.
  unfold STDOUT_FILENO, STDERR_FILENO.
  intros Hrun Hfds Hne H01 H02 H11 H12.
  unfold run_swupd in Hrun.
  destruct (pipe2_r env <? 0); [discriminate |].
  rewrite Hfds in Hrun.
  destruct (fork_pid env =? 0);
    [| destruct (fork_pid env <? 0); [discriminate |];
       destruct (add_io_r env <? 0); discriminate].
  injection Hrun as <-.
  set (t := <[fd1 := PipeWriteEnd]> (<[fd0 := PipeReadEnd]> (fdtable env))).
  assert (Ht1 : exists t1,
            (t1 = t \/ exists f, t1 = <[2 := f]> t)
            /\ child_fds (run_swupd_child args env t)
               = close fd0 (close fd1 (<[1 := PipeWriteEnd]> t1))).
  { unfold run_swupd_child. rewrite Hfds.
    unfold STDOUT_FILENO, STDERR_FILENO, dup2 at 1.
    destruct (t !! 1) as [f |];
      [exists (<[2 := f]> t) | exists t];
      (split; [eauto |]);
      rewrite dup2_retry_dup2; unfold dup2;
      [rewrite lookup_insert_ne by congruence |];
      subst t; rewrite lookup_insert_eq; apply child_fds_of_image. }
  destruct Ht1 as (t1 & Hshape & ->). unfold close.
  split; [| split; [| split]].
  - rewrite !lookup_delete_ne by congruence. apply lookup_insert_eq.
  - apply lookup_delete_eq.
  - rewrite lookup_delete_ne by congruence. apply lookup_delete_eq.
  - intros fd Hf1 Hf2 Hf3 Hf4.
    rewrite !lookup_delete_ne by congruence.
    rewrite lookup_insert_ne by congruence.
    destruct Hshape as [-> | [f ->]];
      [| rewrite lookup_insert_ne by congruence];
      subst t; by rewrite !lookup_insert_ne by congruence.
Qed.

Lemma child_descriptor_table_witness :
  exists image,
    run_swupd METHOD_UPDATE ["swupd"; "update"] sample_env_child (main_state 7)
    = InChild image
    /\ child_fds image !! STDOUT_FILENO = Some PipeWriteEnd
    /\ child_fds image !! 3 = None
    /\ child_fds image !! 4 = None
    /\ forall fd,
         fd <> STDOUT_FILENO -> fd <> STDERR_FILENO -> fd <> 3 -> fd <> 4 ->
         child_fds image !! fd = fdtable sample_env_child !! fd.
Proof.
  eexists. split; [reflexivity |].
  exact (child_descriptor_table METHOD_UPDATE ["swupd"; "update"] sample_env_child
           (main_state 7) _ 3 4 ltac:(reflexivity) ltac:(reflexivity)
           ltac:(discriminate) ltac:(discriminate) ltac:(discriminate)
           ltac:(discriminate) ltac:(discriminate)).
Defined.

(** ** The loop *)

(** The ways an iteration can go, with the calls it makes. *)
Lemma loop_body_cases (exiting : bool) (context : daemon_state_t) (env : loop_env) :
  let wait := EventRun (run_timeout exiting) in
  (* left before the wait, or by a failed wait *)
  (exists step, loop_body exiting context env = (step, [])
                /\ forall e c, step <> LoopContinue e c)
  \/ (exists r, loop_body exiting context env = (LoopReturn r, [wait]))
  \/ (exists t, loop_body exiting context env = (LoopAborted, [wait; Handled t]))
  \/ loop_body exiting context env = (LoopInChild, [wait])
  (* the handler returned *)
  \/ (exists r c t,
        after_run (run env) context = Returned r c t
        /\ ((* no close attempt *)
            loop_body exiting context env
            = (LoopContinue exiting c, [wait; Handled t])
            (* close attempt *)
            \/ (exiting = false /\ run env = RunTimeout /\ c = context
                /\ method context = METHOD_NOTSET /\ t = []
                /\ let close := [wait; Handled []; TryClose (try_close_r env)] in
                   (try_close_r env = - EBUSY
                    /\ loop_body exiting context env = (LoopContinue false context, close))
                   \/ (try_close_r env = - EOPNOTSUPP
                       /\ ((exists r', loop_body exiting context env
                                       = (LoopReturn r', close ++ [NotifyStopping]))
                           \/ (exists r', loop_body exiting context env
                                          = (LoopReturn r',
                                             close ++ [NotifyStopping;
                                                       AddMatch (add_match_r env)]))
                           \/ (0 <= add_match_r env
                               /\ ((exists r',
                                      loop_body exiting context env
                                      = (LoopReturn r',
                                         close ++ [NotifyStopping;
                                                   AddMatch (add_match_r env);
                                                   ReleaseName (release_name_r env)]))
                                   \/ loop_body exiting context env
                                      = (LoopContinue true context,
                                         close ++ [NotifyStopping;
                                                   AddMatch (add_match_r env);
                                                   ReleaseName (release_name_r env)])))))
                   \/ (exists r', loop_body exiting context env = (LoopReturn r', close))
                   \/ loop_body exiting context env
                      = (LoopBreak context, close ++ [EventExit 0])))).
Proof.
  cbv zeta. unfold loop_body.
  destruct (get_state_r env <? 0).
  { left. eexists. split; [reflexivity | discriminate]. }
  destruct (get_state_r env =? SD_EVENT_FINISHED).
  { left. eexists. split; [reflexivity | discriminate]. }
  destruct (run env) as [e | | ev] eqn:Hrun; cbn [sd_event_run_r after_run].
  - right; left. by eexists.
  - change (0 <? 0) with false. change (0 =? 0) with true. cbv iota.
    rewrite andb_true_r.
    right; right; right; right. exists 0, context, [].
    split; [reflexivity |].
    destruct (method_value (method context) =? 0) eqn:HM; [| by left].
    destruct exiting; [by left |]. cbn [negb andb app].
    right. split; [reflexivity |]. split; [reflexivity |]. split; [reflexivity |].
    split; [by destruct (method context) |]. split; [reflexivity |].
    destruct (Z.eqb_spec (try_close_r env) (- EBUSY)) as [Hb | Hb]; [by left |].
    destruct (Z.eqb_spec (try_close_r env) (- EOPNOTSUPP)) as [Ho | Ho].
    + right; left. split; [assumption |].
      destruct (get_unique_name_r env <? 0); [left; by eexists |].
      destruct (asprintf_r env <? 0); [left; by eexists |].
      destruct (Z.ltb_spec (add_match_r env) 0); [right; left; by eexists |].
      right; right. split; [assumption |].
      destruct (release_name_r env <? 0); [left; by eexists | by right].
    + destruct (try_close_r env <? 0); [right; right; left; by eexists |].
      by right; right; right.
  - change (1 <? 0) with false. change (1 =? 0) with false. cbv iota.
    destruct (dispatch ev context) as [r c t | t | img].
    + right; right; right; right. exists r, c, t. split; [reflexivity |].
      left. by rewrite andb_false_r.
    + right; right; left. by eexists.
    + by right; right; right; left.
Qed.

(** Uses of [loop_body_cases]: every alternative rewritten into the
    equation at hand. *)
Ltac loop_alternatives Hbody :=
  match type of Hbody with
  | loop_body ?x ?c ?env = _ =>
      destruct (loop_body_cases x c env)
        as [(s0 & Heq & Hnc)
           | [(r0 & Heq)
           | [(t0 & Heq)
           | [Heq
           | (r0 & c0 & t0 & Hafter
              & [Heq
                | (Hx & Hto & Hc0 & HM & Ht0
                   & [(Hclose & Heq)
                     | [(Hclose & [(r1 & Heq)
                                  | [(r1 & Heq)
                                    | (Hmatch & [(r1 & Heq) | Heq])]])
                       | [(r1 & Heq) | Heq]]])])]]]];
      cbv zeta in Heq; rewrite Heq in Hbody; injection Hbody as <- <-
  end.

Lemma loop_body_summary (exiting : bool) (context : daemon_state_t)
  (env : loop_env) (step : loop_step) (tr : list loop_action) :
  loop_body exiting context env = (step, tr) ->
  (length (name_releases tr) <= 1)%nat
  /\ (length (stop_announcements tr) <= 1)%nat
  /\ (forall t, In t (wait_timeouts tr) -> t = run_timeout exiting)
  /\ (exiting = true ->
      close_attempts tr = [] /\ name_releases tr = [] /\ stop_announcements tr = [])
  /\ (forall e c,
        step = LoopContinue e c ->
        (exiting = true -> e = true)
        /\ (e = false -> name_releases tr = [] /\ stop_announcements tr = [])
        /\ exists r t, after_run (run env) context = Returned r c t).
Proof.
  intros Hbody. loop_alternatives Hbody;
    (split; [cbn; lia |]); (split; [cbn; lia |]);
    (split; [cbn; intros t Hin; intuition (subst; reflexivity) |]);
    (split; [intros ->; (done || discriminate) |]);
    intros e c Hstep; try discriminate Hstep; try (by destruct (Hnc e c));
    injection Hstep as <- <-;
    (split; [intros; congruence |]);
    (split; [intros He; try discriminate He; by cbn |]);
    subst; eauto.
Qed.

(** X17: the watcher comes before the release.  An iteration releases the
    service name only on the idle path (wait timed out, no operation in
    flight, daemon not yet exiting) after [sd_bus_try_close] answered
    [-EOPNOTSUPP], and only after it has announced the stop and registered
    the [NameOwnerChanged] watcher with success, in this order; it then
    either returns the error of the release or continues with [exiting]
    set. *)
Theorem watcher_registered_before_release (exiting : bool)
  (context : daemon_state_t) (env : loop_env) (step : loop_step)
  (tr : list loop_action) (r : Z) :
  loop_body exiting context env = (step, tr) ->
  In (ReleaseName r) tr ->
  exiting = false /\ run env = RunTimeout /\ method context = METHOD_NOTSET
  /\ try_close_r env = - EOPNOTSUPP /\ 0 <= add_match_r env
  /\ r = release_name_r env
  /\ tr = [EventRun 30000000; Handled []; TryClose (- EOPNOTSUPP);
           NotifyStopping; AddMatch (add_match_r env); ReleaseName r]
  /\ ((exists r', step = LoopReturn r') \/ step = LoopContinue true context).
Proof.
  intros Hbody Hin. loop_alternatives Hbody; cbn [In app] in Hin;
    try (intuition discriminate);
    (destruct Hin as [Hin | [Hin | [Hin | [Hin | [Hin | [Hin | []]]]]]];
     try discriminate Hin; injection Hin as <-);
    subst exiting; rewrite Hclose; cbn [app run_timeout];
    repeat (split; [done |]); eauto.
Qed.

Lemma watcher_registered_before_release_witness :
  false = false
  /\ run sample_release_env = RunTimeout
  /\ method (main_state 7) = METHOD_NOTSET
  /\ try_close_r sample_release_env
     = - EOPNOTSUPP
  /\ 0 <= add_match_r sample_release_env
  /\ 1 = release_name_r sample_release_env
  /\ [EventRun 30000000; Handled []; TryClose (- EOPNOTSUPP);
      NotifyStopping; AddMatch 1; ReleaseName 1]
     = [EventRun 30000000; Handled []; TryClose (- EOPNOTSUPP);
        NotifyStopping;
        AddMatch (add_match_r sample_release_env);
        ReleaseName 1]
  /\ ((exists r', LoopContinue true (main_state 7) = LoopReturn r')
      \/ LoopContinue true (main_state 7) = LoopContinue true (main_state 7)).
Proof.
  exact (watcher_registered_before_release false (main_state 7)
           sample_release_env
           (LoopContinue true (main_state 7))
           [EventRun 30000000; Handled []; TryClose (- EOPNOTSUPP);
            NotifyStopping; AddMatch 1; ReleaseName 1] 1
           ltac:(reflexivity) ltac:(cbn; tauto)).
Defined.

Lemma close_attempts_app (a b : list loop_action) :
  close_attempts (a ++ b) = close_attempts a ++ close_attempts b.
Proof. apply flat_map_app. Qed.

Lemma name_releases_app (a b : list loop_action) :
  name_releases (a ++ b) = name_releases a ++ name_releases b.
Proof. apply flat_map_app. Qed.

Lemma stop_announcements_app (a b : list loop_action) :
  stop_announcements (a ++ b) = stop_announcements a ++ stop_announcements b.
Proof. apply flat_map_app. Qed.

Lemma wait_timeouts_app (a b : list loop_action) :
  wait_timeouts (a ++ b) = wait_timeouts a ++ wait_timeouts b.
Proof. apply flat_map_app. Qed.

(** What a whole run of the loop has done, from any iteration on. *)
Lemma loop_run_summary (exit_code_r code : Z) (envs : list loop_env) :
  forall (exiting : bool) (context : daemon_state_t) (r : Z)
         (tr : list loop_action),
    run_bus_event_loop_from envs exiting context exit_code_r code = Some (r, tr) ->
    (length (name_releases tr) <= 1)%nat
    /\ (length (stop_announcements tr) <= 1)%nat
    /\ (exiting = true ->
        close_attempts tr = [] /\ name_releases tr = []
        /\ stop_announcements tr = []
        /\ forall t, In t (wait_timeouts tr) -> t = UINT64_MAX).
Proof.
  induction envs as [| env envs IH]; intros exiting context r tr;
    cbn [run_bus_event_loop_from]; [discriminate |].
  destruct (loop_body exiting context env) as [step tr0] eqn:Hbody.
  destruct (loop_body_summary _ _ _ _ _ Hbody) as (Hrel & Hstop & Hwait & Hex & Hcont).
  assert (Hend : tr = tr0 ->
            (length (name_releases tr) <= 1)%nat
            /\ (length (stop_announcements tr) <= 1)%nat
            /\ (exiting = true ->
                close_attempts tr = [] /\ name_releases tr = []
                /\ stop_announcements tr = []
                /\ forall t, In t (wait_timeouts tr) -> t = UINT64_MAX)).
  { intros ->. split; [assumption |]. split; [assumption |].
    intros Hx. destruct (Hex Hx) as (H1 & H2 & H3).
    repeat (split; [assumption |]).
    intros t Hin. rewrite (Hwait t Hin), Hx. reflexivity. }
  destruct step as [e c | c | r0 | |]; try discriminate.
  - destruct (run_bus_event_loop_from envs e c exit_code_r code)
      as [[r' tr'] |] eqn:Hrest; [| discriminate].
    intros [= <- <-].
    destruct (IH e c r' tr' Hrest) as (Hrel' & Hstop' & Hex').
    destruct (Hcont e c eq_refl) as (Hmono & Hquiet & _).
    rewrite name_releases_app, stop_announcements_app, !length_app.
    assert (Hsum : (length (name_releases tr0) + length (name_releases tr') <= 1)%nat
                   /\ (length (stop_announcements tr0)
                       + length (stop_announcements tr') <= 1)%nat).
    { destruct e.
      - destruct (Hex' eq_refl) as (_ & -> & -> & _). cbn [length]. lia.
      - destruct (Hquiet eq_refl) as [-> ->]. cbn [length]. lia. }
    split; [tauto |]. split; [tauto |].
    intros Hx. destruct (Hex Hx) as (H1 & H2 & H3).
    destruct (Hex' (Hmono Hx)) as (H1' & H2' & H3' & H4').
    rewrite close_attempts_app, H1, H1', H2, H2', H3, H3'.
    repeat (split; [reflexivity |]).
    intros t Hin. rewrite wait_timeouts_app in Hin.
    apply in_app_or in Hin as [Hin | Hin]; [| by apply H4'].
    rewrite (Hwait t Hin), Hx. reflexivity.
  - intros [= <- <-]. by apply Hend.
  - intros [= <- <-]. by apply Hend.
Qed.

(** X18: once the daemon has set [exiting], for the rest of the run of the
    loop it makes no close attempt, releases no name and announces no stop
    again, and every wait it makes has the infinite timeout; the loop is
    then left only through the event state, a failed wait or an abort. *)
Theorem exiting_daemon_only_waits (envs : list loop_env)
  (context : daemon_state_t) (exit_code_r code r : Z) (tr : list loop_action) :
  run_bus_event_loop_from envs true context exit_code_r code = Some (r, tr) ->
  close_attempts tr = [] /\ name_releases tr = [] /\ stop_announcements tr = []
  /\ forall t, In t (wait_timeouts tr) -> t = UINT64_MAX.
Proof.
  intros Hrun.
  destruct (loop_run_summary _ _ _ _ _ _ _ Hrun) as (_ & _ & Hex). by apply Hex.
Qed.

Lemma exiting_daemon_only_waits_witness :
  close_attempts [EventRun UINT64_MAX; Handled []; EventRun UINT64_MAX;
                  Handled [ActBusClose; ActEventExit 0]] = []
  /\ name_releases [EventRun UINT64_MAX; Handled []; EventRun UINT64_MAX;
                    Handled [ActBusClose; ActEventExit 0]] = []
  /\ stop_announcements [EventRun UINT64_MAX; Handled []; EventRun UINT64_MAX;
                         Handled [ActBusClose; ActEventExit 0]] = []
  /\ forall t,
       In t (wait_timeouts [EventRun UINT64_MAX; Handled []; EventRun UINT64_MAX;
                            Handled [ActBusClose; ActEventExit 0]]) ->
       t = UINT64_MAX.
Proof.
  exact (exiting_daemon_only_waits
           [mk_loop_env SD_EVENT_INITIAL RunTimeout 0 1 1 1 1;
            mk_loop_env SD_EVENT_INITIAL (RunDispatched NameOwnerChanged) 0 1 1 1 1;
            mk_loop_env SD_EVENT_FINISHED RunTimeout 0 1 1 1 1]
           (main_state 7) 0 0 0 _ ltac:(reflexivity)).
Defined.

(** X19: in a whole run of the loop the service name is released at most
    once and the stop is announced at most once. *)
Theorem name_released_at_most_once (envs : list loop_env)
  (context : daemon_state_t) (exit_code_r code r : Z) (tr : list loop_action) :
  run_bus_event_loop envs context exit_code_r code = Some (r, tr) ->
  (length (name_releases tr) <= 1)%nat
  /\ (length (stop_announcements tr) <= 1)%nat.
Proof.
  intros Hrun. unfold run_bus_event_loop in Hrun.
  destruct (loop_run_summary _ _ _ _ _ _ _ Hrun) as (H1 & H2 & _). by split.
Qed.

Lemma name_released_at_most_once_witness :
  (length (name_releases
             [EventRun 30000000; Handled []; TryClose (- EOPNOTSUPP);
              NotifyStopping; AddMatch 1; ReleaseName 1;
              EventRun UINT64_MAX; Handled []]) <= 1)%nat
  /\ (length (stop_announcements
                [EventRun 30000000; Handled []; TryClose (- EOPNOTSUPP);
                 NotifyStopping; AddMatch 1; ReleaseName 1;
                 EventRun UINT64_MAX; Handled []]) <= 1)%nat.
Proof.
  exact (name_released_at_most_once
           [mk_loop_env SD_EVENT_INITIAL RunTimeout (- EOPNOTSUPP) 1 1 1 1;
            mk_loop_env SD_EVENT_INITIAL RunTimeout (- EOPNOTSUPP) 1 1 1 1;
            mk_loop_env SD_EVENT_FINISHED RunTimeout 0 1 1 1 1]
           (main_state 7) 0 0 0 _ ltac:(reflexivity)).
Defined.

(** X20: the loop only moves the daemon through states that events reach.
    The state at the start of any iteration of a run that began in the
    state of [main] is the result of dispatching the events the earlier
    waits delivered; so it keeps the bus handle, and its kind is none
    exactly when its child is zero. *)
Theorem loop_states_are_reachable (envs : list loop_env) (b : Z)
  (exiting : bool) (context : daemon_state_t) :
  loop_context envs false (main_state b) = Some (exiting, context) ->
  (exists evs, run_events evs (main_state b) = Some context)
  /\ bus context = b
  /\ (method context = METHOD_NOTSET <-> child context = 0).
Proof.
  intros Hloop.
  assert (Hreach : forall envs x c x' c',
            loop_context envs x c = Some (x', c') ->
            exists evs, run_events evs c = Some c').
  { clear. induction envs as [| env envs IH]; intros x c x' c';
      cbn [loop_context].
    - intros [= _ <-]. by exists [].
    - destruct (loop_body x c env) as [step tr] eqn:Hbody. cbn [fst].
      destruct step as [e c1 | | | |]; try discriminate.
      intros Hrest. destruct (IH _ _ _ _ Hrest) as [evs Hevs].
      destruct (loop_body_summary _ _ _ _ _ Hbody) as (_ & _ & _ & _ & Hcont).
      destruct (Hcont e c1 eq_refl) as (_ & _ & r & t & Hafter).
      destruct (run env) as [errno | | ev]; cbn [after_run] in Hafter.
      + injection Hafter as _ <- _. by exists evs.
      + injection Hafter as _ <- _. by exists evs.
      + exists (ev :: evs). cbn [run_events]. by rewrite Hafter. }
  destruct (Hreach _ _ _ _ _ Hloop) as [evs Hevs].
  split; [by exists evs |].
  destruct (run_events_wf evs _ _ (main_state_wf b) Hevs) as [_ Hb].
  split; [exact Hb |].
  exact (run_events_invariant evs _ _ (main_state_invariant b) Hevs).
Qed.

Lemma loop_states_are_reachable_witness :
  (exists evs, run_events evs (main_state 7) = Some sample_busy_state)
  /\ bus sample_busy_state = 7
  /\ (method sample_busy_state = METHOD_NOTSET <-> child sample_busy_state = 0).
Proof.
  exact (loop_states_are_reachable
           [mk_loop_env SD_EVENT_INITIAL RunTimeout (- EBUSY) 1 1 1 1;
            mk_loop_env SD_EVENT_INITIAL
              (RunDispatched (BusCall "update" [ArgOptions []] sample_env_parent))
              0 1 1 1 1]
           7 false sample_busy_state ltac:(reflexivity)).
Defined.

(** ** Startup *)

Ltac main_steps :=
  repeat match goal with
  | |- context [if ?r <? 0 then _ else _] =>
      destruct (Z.ltb_spec r 0)
  | |- context [if (?a <? 0) || (?b <? 0) then _ else _] =>
      destruct (Z.ltb_spec a 0); destruct (Z.ltb_spec b 0); cbn [orb]
  end.

Ltac leb_facts :=
  repeat match goal with
  | |- context [0 <=? ?r] => destruct (Z.leb_spec 0 r); try lia
  | |- context [?r <? 0] => destruct (Z.ltb_spec r 0); try lia
  end.

(** X21: a failed startup.  When a step of [main] before the loop fails,
    [main] returns without announcing readiness and without entering the
    loop.  Its status is [EXIT_FAILURE], except when the step that failed
    is [sigprocmask]: that branch does not assign [r], which still holds
    the result of [sd_event_default], and [main] returns [EXIT_SUCCESS]. *)
Theorem failed_startup_skips_loop (env : main_env) :
  startup_ok env = false ->
  exists status trace,
    main env = Some (status, trace)
    /\ announces_ready trace = false
    /\ enters_loop trace = false
    /\ status = if sigprocmask_failed env then EXIT_SUCCESS else EXIT_FAILURE.
Proof.
  unfold startup_ok, sigprocmask_failed, main, main_finish. intros Hfail.
  main_steps;
    try (eexists _, _; split; [reflexivity |];
         split; [reflexivity |]; split; [reflexivity |];
         leb_facts; reflexivity).
  all: exfalso; revert Hfail; leb_facts; try (cbn; intros Hfail; discriminate Hfail).
Qed.

Lemma failed_startup_skips_loop_witness :
  exists status trace,
    main (mk_main_env 0 0 0 1%positive 0 0 (- ENXIO) 7 0 0 0 [] 0 0)
    = Some (status, trace)
    /\ announces_ready trace = false
    /\ enters_loop trace = false
    /\ status = EXIT_FAILURE.
Proof.
  exact (failed_startup_skips_loop
           (mk_main_env 0 0 0 1%positive 0 0 (- ENXIO) 7 0 0 0 [] 0 0)
           ltac:(reflexivity)).
Defined.

(** X22: a successful startup.  When every step before the loop succeeds,
    [main] announces readiness and runs the loop on the zeroed daemon state
    that holds the opened bus handle; when the loop is left with result
    [r], the status of [main] is [EXIT_FAILURE] for a negative [r] and
    [EXIT_SUCCESS] otherwise. *)
Theorem successful_startup_runs_loop (env : main_env) (r : Z)
  (tr : list loop_action) :
  startup_ok env = true ->
  run_bus_event_loop (loop_envs env) (main_state (bus_handle env))
    (get_exit_code_r env) (exit_code env) = Some (r, tr) ->
  exists trace,
    main env = Some (if r <? 0 then EXIT_FAILURE else EXIT_SUCCESS,
                     trace ++ [MainNotifyReady; MainLoop tr])
    /\ announces_ready trace = false /\ enters_loop trace = false.
Proof.
  unfold startup_ok. intros Hok Hloop.
  rewrite !andb_true_iff, !Z.leb_le in Hok.
  destruct Hok as ((((((((? & ?) & ?) & ?) & ?) & ?) & ?) & ?) & ?).
  unfold main, main_finish, main_state in *.
  repeat match goal with
  | H : 0 <= ?x |- _ => rewrite (proj2 (Z.ltb_ge x 0) H); clear H
  end.
  cbn [orb]. rewrite Hloop.
  exists [MainEventDefault (event_default_r env);
          MainSigprocmask (sigprocmask_r env);
          MainAddSignal (add_signal_r env); MainSetWatchdog;
          MainOpenSystem (open_system_r env);
          MainAddObjectVtable (add_object_vtable_r env);
          MainRequestName (request_name_r env);
          MainAttachEvent (attach_event_r env)].
  split; [reflexivity | by split].
Qed.

Lemma successful_startup_runs_loop_witness :
  exists trace,
    main (mk_main_env 0 0 0 1%positive 0 0 0 7 0 0 0 [sample_loop_env] 0 0)
    = Some (if 0 <? 0 then EXIT_FAILURE else EXIT_SUCCESS,
            trace ++ [MainNotifyReady;
                      MainLoop [EventRun 30000000; Handled []; TryClose 0;
                                EventExit 0]])
    /\ announces_ready trace = false /\ enters_loop trace = false.
Proof.
  exact (successful_startup_runs_loop
           (mk_main_env 0 0 0 1%positive 0 0 0 7 0 0 0 [sample_loop_env] 0 0)
           0 _ ltac:(reflexivity) ltac:(reflexivity)).
Defined.
